(** * SpikingFlow.connection.transform: spike-to-current transformers

    A shallow embedding of [SpikingFlow/connection/transform.py] and the
    properties of its three transformers ([SpikeCurrent], [ExpDecayCurrent],
    [STPTransformer]).

    Modelling conventions.
    - Numbers.  Python numbers and the entries of torch tensors are exact
      rationals ([Qc], canonical rationals with Leibniz equality).  Rounding,
      overflow, infinities and NaN of IEEE-754 arithmetic are left to
      [Binary32], which runs one unit of [ExpDecayCurrent] on binary32
      numbers.
    - Values.  A Python value is a number ([PyNum]) or a rank-1 torch tensor
      ([Tensor], one entry per simulated unit, shape [[length data]]).
    - Spikes.  A spike sample is a rank-1 boolean tensor, [list bool].
    - Effects.  A method is a function from the object before the call to
      the object after the call together with the value returned or the
      exception raised; attribute stores that happen before an exception
      stay visible in the object after the call. *)

From Stdlib Require Import List Bool Arith ZArith Lia QArith Qcanon Lqa.
From Stdlib Require Import Floats.SpecFloat.
Import ListNotations.

Local Open Scope Qc_scope.

(** ** Exceptions and results *)

Inductive exn : Type :=
| ZeroDivisionError   (* Python: number / 0 *)
| ShapeError          (* torch RuntimeError: sizes of tensors do not match *)
| NotImplementedError (* BaseTransformer.forward *)
| ValueError          (* a rejected constructor argument *)
| NonFiniteEntry.     (* not an exception: torch would store inf/nan here,
                         which the rational model cannot carry *)

Inductive result (A : Type) : Type :=
| Ok (a : A)
| Raise (e : exn).

Arguments Ok {A} a.
Arguments Raise {A} e.

(** ** Python values and the torch operations the source uses *)

Inductive pyval : Type :=
| PyNum (q : Qc)
| Tensor (data : list Qc).

Module Torch.

Fixpoint map2 (f : Qc -> Qc -> Qc) (a b : list Qc) : list Qc :=
  match a, b with
  | x :: a', y :: b' => f x y :: map2 f a' b'
  | _, _ => []
  end.

(** Elementwise operation on two rank-1 tensors under torch's broadcasting
    rule: the sizes agree, or one of them is 1. *)
Definition broadcast (f : Qc -> Qc -> Qc) (a b : list Qc) : result (list Qc) :=
  if Nat.eqb (length a) (length b) then Ok (map2 f a b)
  else match a, b with
       | [x], _ => Ok (map (f x) b)
       | _, [y] => Ok (map (fun x => f x y) a)
       | _, _ => Raise ShapeError
       end.

(** [v op w] for [op] among [+], [-], [*]. *)
Definition binop (f : Qc -> Qc -> Qc) (v w : pyval) : result pyval :=
  match v, w with
  | PyNum a, PyNum b => Ok (PyNum (f a b))
  | PyNum a, Tensor b => Ok (Tensor (map (f a) b))
  | Tensor a, PyNum b => Ok (Tensor (map (fun x => f x b) a))
  | Tensor a, Tensor b =>
      match broadcast f a b with
      | Ok c => Ok (Tensor c)
      | Raise e => Raise e
      end
  end.

Definition add := binop Qcplus.
Definition sub := binop Qcminus.
Definition mul := binop Qcmult.

(** [-v] *)
Definition neg (v : pyval) : pyval :=
  match v with
  | PyNum a => PyNum (- a)
  | Tensor a => Tensor (map Qcopp a)
  end.

(** [v / d] for a Python number [d].  Python raises on a zero divisor when
    [v] is a number; torch divides entry by entry and stores inf or nan. *)
Definition div (v : pyval) (d : Qc) : result pyval :=
  match v with
  | PyNum a =>
      if Qc_eq_dec d 0 then Raise ZeroDivisionError else Ok (PyNum (a / d))
  | Tensor a =>
      if Qc_eq_dec d 0
      then match a with [] => Ok (Tensor []) | _ :: _ => Raise NonFiniteEntry end
      else Ok (Tensor (map (fun x => x / d) a))
  end.

(** [self += rhs].  A Python number has no [__iadd__], the name is rebound
    to [self + rhs]; a tensor is updated in place by [add_], which refuses
    a right-hand side that does not broadcast to the shape of [self]. *)
Definition iadd (self rhs : pyval) : result pyval :=
  match self, rhs with
  | PyNum a, _ => add (PyNum a) rhs
  | Tensor a, PyNum b => Ok (Tensor (map (fun x => x + b) a))
  | Tensor a, Tensor b =>
      if Nat.eqb (length a) (length b) then Ok (Tensor (map2 Qcplus a b))
      else match b with
           | [y] => Ok (Tensor (map (fun x => x + y) a))
           | _ => Raise ShapeError
           end
  end.

(** [in_spike.float()] *)
Definition bool_to_float (b : bool) : Qc := if b then 1 else 0.
Definition float (in_spike : list bool) : pyval :=
  Tensor (map bool_to_float in_spike).

(** [t.fill_(q)] on a tensor. *)
Definition fill_ (v : pyval) (q : Qc) : pyval :=
  match v with
  | PyNum a => PyNum a
  | Tensor a => Tensor (map (fun _ => q) a)
  end.

Definition isinstance_float (v : pyval) : bool :=
  match v with PyNum _ => true | Tensor _ => false end.

End Torch.

(** ** Methods: object state with exceptions *)

Definition M (S A : Type) : Type := S -> S * result A.

Definition ret {S A} (a : A) : M S A := fun s => (s, Ok a).

Definition bind {S A B} (m : M S A) (k : A -> M S B) : M S B :=
  fun s =>
    match m s with
    | (s', Ok a) => k a s'
    | (s', Raise e) => (s', Raise e)
    end.

Definition get {S} : M S S := fun s => (s, Ok s).
Definition put {S} (s : S) : M S unit := fun _ => (s, Ok tt).
Definition lift {S A} (r : result A) : M S A := fun s => (s, r).
Definition raise {S A} (e : exn) : M S A := fun s => (s, Raise e).

Declare Scope method_scope.
Delimit Scope method_scope with method.
Notation "x <- m ;; k" := (bind m (fun x => k))
  (at level 61, m at next level, right associativity) : method_scope.
Notation "m ;;; k" := (bind m (fun _ => k))
  (at level 61, right associativity) : method_scope.
Local Open Scope method_scope.

(** The interface of [BaseTransformer]: every transformer has [forward] and
    [reset]. *)
Class Transformer (T : Type) : Type := {
  forward : list bool -> M T pyval;
  reset : M T unit
}.

(** ** class BaseTransformer *)

Module BaseTransformer.

Definition t : Type := unit.

Definition forward (in_spike : list bool) : M t pyval :=
  raise NotImplementedError.

Definition reset : M t unit := ret tt.

End BaseTransformer.

(** ** class SpikeCurrent *)

Module SpikeCurrent.

Record t : Type := mk { amplitude : Qc }.

Definition __init__ (amplitude : Qc) : result t := Ok (mk amplitude).

(** [return in_spike.float() * self.amplitude] *)
Definition forward (in_spike : list bool) : M t pyval :=
  self <- get ;;
  lift (Torch.mul (Torch.float in_spike) (PyNum (amplitude self))).

(** inherited from [BaseTransformer]: [pass] *)
Definition reset : M t unit := ret tt.

End SpikeCurrent.

(** ** class ExpDecayCurrent *)

Module ExpDecayCurrent.

Record t : Type := mk { tau : Qc; amplitude : Qc; i : pyval }.

Definition set_i (self : t) (v : pyval) : t :=
  mk (tau self) (amplitude self) v.

Definition __init__ (tau amplitude : Qc) : result t :=
  Ok (mk tau amplitude (PyNum 0)).

Definition forward (in_spike : list bool) : M t pyval :=
  let in_spike_float := Torch.float in_spike in
  (* i_decay = -self.i / self.tau *)
  self <- get ;;
  i_decay <- lift (Torch.div (Torch.neg (i self)) (tau self)) ;;
  (* self.i += i_decay * (1 - in_spike_float) + self.amplitude * in_spike_float *)
  one_minus <- lift (Torch.sub (PyNum 1) in_spike_float) ;;
  decayed <- lift (Torch.mul i_decay one_minus) ;;
  jump <- lift (Torch.mul (PyNum (amplitude self)) in_spike_float) ;;
  rhs <- lift (Torch.add decayed jump) ;;
  i' <- lift (Torch.iadd (i self) rhs) ;;
  put (set_i self i') ;;;
  (* return self.i *)
  self <- get ;;
  ret (i self).

(** [self.i = 0] *)
Definition reset : M t unit :=
  self <- get ;;
  put (set_i self (PyNum 0)).

End ExpDecayCurrent.

(** ** class STPTransformer *)

Module STPTransformer.

Record t : Type := mk { u_base : Qc; tau_f : Qc; tau_d : Qc; x : pyval; u : pyval }.

Definition set_x (self : t) (v : pyval) : t :=
  mk (u_base self) (tau_f self) (tau_d self) v (u self).
Definition set_u (self : t) (v : pyval) : t :=
  mk (u_base self) (tau_f self) (tau_d self) (x self) v.

Definition __init__ (u_base tau_f tau_d : Qc) : result t :=
  Ok (mk u_base tau_f tau_d (PyNum 1) (PyNum u_base)).

Definition forward (in_spike : list bool) : M t pyval :=
  let in_spike_float := Torch.float in_spike in
  (* x_decay = (1.0 - self.x)/self.tau_d *)
  self <- get ;;
  one_minus_x <- lift (Torch.sub (PyNum 1) (x self)) ;;
  x_decay <- lift (Torch.div one_minus_x (tau_d self)) ;;
  (* self.x += x_decay - self.x * in_spike_float * self.u *)
  xs <- lift (Torch.mul (x self) in_spike_float) ;;
  xsu <- lift (Torch.mul xs (u self)) ;;
  dx <- lift (Torch.sub x_decay xsu) ;;
  x' <- lift (Torch.iadd (x self) dx) ;;
  put (set_x self x') ;;;
  (* u_decay = (self.u_base - self.u) / self.tau_f *)
  self <- get ;;
  ub_minus_u <- lift (Torch.sub (PyNum (u_base self)) (u self)) ;;
  u_decay <- lift (Torch.div ub_minus_u (tau_f self)) ;;
  (* self.u += u_decay + self.u_base * (1-self.u) * in_spike_float *)
  one_minus_u <- lift (Torch.sub (PyNum 1) (u self)) ;;
  ubu <- lift (Torch.mul (PyNum (u_base self)) one_minus_u) ;;
  ubus <- lift (Torch.mul ubu in_spike_float) ;;
  du <- lift (Torch.add u_decay ubus) ;;
  u' <- lift (Torch.iadd (u self) du) ;;
  put (set_u self u') ;;;
  (* return self.u * self.x * in_spike_float *)
  self <- get ;;
  ux <- lift (Torch.mul (u self) (x self)) ;;
  lift (Torch.mul ux in_spike_float).

Definition reset : M t unit :=
  (* if not isinstance(self.x, float): self.x.fill_(1.0) *)
  self <- get ;;
  (if negb (Torch.isinstance_float (x self))
   then put (set_x self (Torch.fill_ (x self) 1))
   else ret tt) ;;;
  (* if not isinstance(self.u, float): self.u.fill_(self.u_base) *)
  self <- get ;;
  (if negb (Torch.isinstance_float (u self))
   then put (set_u self (Torch.fill_ (u self) (u_base self)))
   else ret tt).

End STPTransformer.

#[export] Instance SpikeCurrent_Transformer : Transformer SpikeCurrent.t :=
  {| forward := SpikeCurrent.forward; reset := SpikeCurrent.reset |}.
#[export] Instance ExpDecayCurrent_Transformer : Transformer ExpDecayCurrent.t :=
  {| forward := ExpDecayCurrent.forward; reset := ExpDecayCurrent.reset |}.
#[export] Instance STPTransformer_Transformer : Transformer STPTransformer.t :=
  {| forward := STPTransformer.forward; reset := STPTransformer.reset |}.

(** ** Driving a transformer with a spike train *)

(** The object after the calls [forward s] for each [s] of the train, in
    order; a call that raises is caught and the train goes on. *)
Fixpoint run_state {T} `{Transformer T} (train : list (list bool)) (self : T) : T :=
  match train with
  | [] => self
  | s :: train' => run_state train' (fst (forward s self))
  end.

(** The results of these calls, one per timestep. *)
Fixpoint run {T} `{Transformer T} (train : list (list bool)) (self : T)
  : list (result pyval) :=
  match train with
  | [] => []
  | s :: train' =>
      let (self', r) := forward s self in r :: run train' self'
  end.

(** Rational literals. *)
Definition qz (z : Z) : Qc := Q2Qc (inject_Z z).
Definition qfrac (n : Z) (d : positive) : Qc := Q2Qc (n # d).

(** ** The update rules as the specification words them, one unit at a time *)

(** [i_next = i + decay * (1 - s) + amplitude * s] with [decay = -i / tau]. *)
Definition exp_decay_next (tau amplitude i s : Qc) : Qc :=
  let decay := - i / tau in
  i + decay * (1 - s) + amplitude * s.

(** [x_next = x + x_decay - x * s * u] with [x_decay = (1 - x) / tau_d]. *)
Definition stp_x_next (tau_d x u s : Qc) : Qc :=
  let x_decay := (1 - x) / tau_d in
  x + x_decay - x * s * u.

(** [u_next = u + u_decay + u_base * (1 - u) * s] with
    [u_decay = (u_base - u) / tau_f]. *)
Definition stp_u_next (u_base tau_f u s : Qc) : Qc :=
  let u_decay := (u_base - u) / tau_f in
  u + u_decay + u_base * (1 - u) * s.

(** [output = u_next * x_next * s] *)
Definition stp_output (u_base tau_f tau_d x u s : Qc) : Qc :=
  stp_u_next u_base tau_f u s * stp_x_next tau_d x u s * s.

(** The entries of a value seen from [n] units: a Python number stands for
    the same number at every unit. *)
Definition units (n : nat) (v : pyval) : list Qc :=
  match v with
  | PyNum q => repeat q n
  | Tensor a => a
  end.

(** A value fits [n] units when it is a number or a tensor of [n] entries. *)
Definition has_shape (v : pyval) (n : nat) : Prop :=
  match v with
  | PyNum _ => True
  | Tensor a => length a = n
  end.

(** Every entry of the value is [q]. *)
Definition all_entries (q : Qc) (v : pyval) : Prop :=
  match v with
  | PyNum a => a = q
  | Tensor a => Forall (eq q) a
  end.

(** Three-argument pointwise map, for the closed forms below. *)
Fixpoint map3 (f : Qc -> Qc -> Qc -> Qc) (a b c : list Qc) : list Qc :=
  match a, b, c with
  | x :: a', y :: b', z :: c' => f x y z :: map3 f a' b' c'
  | _, _, _ => []
  end.

(** What every reachable [STPTransformer] satisfies: the parameters are those
    of the constructor, and a state variable that is still a Python float
    still holds its initial value. *)
Definition stp_invariant (u_base tau_f tau_d : Qc) (self : STPTransformer.t) : Prop :=
  STPTransformer.u_base self = u_base
  /\ STPTransformer.tau_f self = tau_f
  /\ STPTransformer.tau_d self = tau_d
  /\ (Torch.isinstance_float (STPTransformer.x self) = true ->
      STPTransformer.x self = PyNum 1)
  /\ (Torch.isinstance_float (STPTransformer.u self) = true ->
      STPTransformer.u self = PyNum u_base).

(** ** One unit of a batch *)

(** The entry of unit [k]: a one-unit tensor for a tensor, the number itself
    for a Python number. *)
Definition unit_of (k : nat) (v : pyval) : pyval :=
  match v with
  | PyNum q => PyNum q
  | Tensor a => Tensor [nth k a 0]
  end.

(** The spike sample that unit [k] of a batch sees on its own. *)
Definition sample_of (k : nat) (in_spike : list bool) : list bool :=
  [nth k in_spike false].

Definition result_map {A B} (f : A -> B) (r : result A) : result B :=
  match r with
  | Ok a => Ok (f a)
  | Raise e => Raise e
  end.

(** [v2] is what unit [k] of the [n]-unit value [v1] holds. *)
Definition sim (k n : nat) (v1 v2 : pyval) : Prop :=
  has_shape v1 n /\ v2 = unit_of k v1.

Definition sim_result {A} (R : A -> A -> Prop) (r1 r2 : result A) : Prop :=
  match r1, r2 with
  | Ok a1, Ok a2 => R a1 a2
  | Raise e1, Raise e2 => e1 = e2
  | _, _ => False
  end.

(** Two calls that keep related objects related and end alike. *)
Definition msim {S A} (RS : S -> S -> Prop) (RA : A -> A -> Prop)
    (m1 m2 : M S A) : Prop :=
  forall s1 s2, RS s1 s2 ->
    RS (fst (m1 s1)) (fst (m2 s2)) /\ sim_result RA (snd (m1 s1)) (snd (m2 s2)).

Definition ExpDecayCurrent_sim (k n : nat) (b s : ExpDecayCurrent.t) : Prop :=
  ExpDecayCurrent.tau s = ExpDecayCurrent.tau b
  /\ ExpDecayCurrent.amplitude s = ExpDecayCurrent.amplitude b
  /\ sim k n (ExpDecayCurrent.i b) (ExpDecayCurrent.i s).

Definition STPTransformer_sim (k n : nat) (b s : STPTransformer.t) : Prop :=
  STPTransformer.u_base s = STPTransformer.u_base b
  /\ STPTransformer.tau_f s = STPTransformer.tau_f b
  /\ STPTransformer.tau_d s = STPTransformer.tau_d b
  /\ sim k n (STPTransformer.x b) (STPTransformer.x s)
  /\ sim k n (STPTransformer.u b) (STPTransformer.u s).

(** A tensor of exactly [m] entries. *)
Definition wide (m : nat) (v : pyval) : Prop :=
  match v with
  | PyNum _ => False
  | Tensor a => length a = m
  end.

(** What every reachable stateful object satisfies: a state variable has
    become a tensor only through a division that did not raise. *)
Definition ExpDecayCurrent_divides (self : ExpDecayCurrent.t) : Prop :=
  Torch.isinstance_float (ExpDecayCurrent.i self) = false ->
  ExpDecayCurrent.tau self <> 0.

Definition STPTransformer_divides (self : STPTransformer.t) : Prop :=
  (Torch.isinstance_float (STPTransformer.x self) = false ->
   STPTransformer.tau_d self <> 0)
  /\ (Torch.isinstance_float (STPTransformer.u self) = false ->
      STPTransformer.tau_f self <> 0).

(** ** What reset leaves *)

(** The value with every entry replaced by [q] and the shape kept: a number
    becomes the number [q], a tensor of [n] entries the tensor of [n] entries
    [q]. *)
Definition refill (q : Qc) (v : pyval) : pyval :=
  match v with
  | PyNum _ => PyNum q
  | Tensor a => Tensor (repeat q (length a))
  end.

(** ** ExpDecayCurrent in binary32

    torch computes on float32 tensors.  One unit of a tensor state is a
    binary32 number ([spec_float] at precision 24 and maximal exponent 128,
    rounding to nearest even); the Python numbers [tau], [amplitude] and [1]
    enter each operation as binary32 numbers. *)

Module Binary32.

Definition prec : Z := 24.
Definition emax : Z := 128.

Definition add : spec_float -> spec_float -> spec_float := SFadd prec emax.
Definition sub : spec_float -> spec_float -> spec_float := SFsub prec emax.
Definition mul : spec_float -> spec_float -> spec_float := SFmul prec emax.
Definition div : spec_float -> spec_float -> spec_float := SFdiv prec emax.
Definition neg : spec_float -> spec_float := SFopp.

Definition zero : spec_float := S754_zero false.
Definition one : spec_float := SFone prec emax.

(** [m * 2^e] rounded to binary32. *)
Definition dyadic (m : positive) (e : Z) : spec_float :=
  binary_round prec emax false m e.

(** [in_spike.float()] at one unit. *)
Definition bool_to_float (b : bool) : spec_float := if b then one else zero.

Definition is_finite (f : spec_float) : bool :=
  match f with
  | S754_zero _ | S754_finite _ _ _ => true
  | S754_infinity _ | S754_nan => false
  end.

Definition is_positive (f : spec_float) : bool := SFltb zero f.

(** [ExpDecayCurrent.forward] at one unit of a tensor state [i]. *)
Definition forward_unit (tau amplitude i : spec_float) (in_spike : bool)
  : spec_float :=
  let in_spike_float := bool_to_float in_spike in
  (* i_decay = -self.i / self.tau *)
  let i_decay := div (neg i) tau in
  (* self.i += i_decay * (1 - in_spike_float) + self.amplitude * in_spike_float *)
  add i (add (mul i_decay (sub one in_spike_float)) (mul amplitude in_spike_float)).

(** The unit's state after the calls of a train, in order. *)
Fixpoint run_unit (tau amplitude i : spec_float) (train : list bool)
  : spec_float :=
  match train with
  | [] => i
  | in_spike :: train' =>
      run_unit tau amplitude (forward_unit tau amplitude i in_spike) train'
  end.

End Binary32.

(** ** Vocabulary of the further results *)



(** Every entry of the value lies between [lo] and [hi]. *)
Definition entries_between (lo hi : Qc) (v : pyval) : Prop :=
  match v with
  | PyNum q => lo <= q /\ q <= hi
  | Tensor a => Forall (fun q => lo <= q /\ q <= hi) a
  end.

(** A train of [m] samples of [n] units in which every unit sends [b]. *)
Definition constant_train (b : bool) (n m : nat) : list (list bool) :=
  repeat (repeat b n) m.

(** The call returned a tensor of [n] entries. *)
Definition returns_units (n : nat) (r : result pyval) : Prop :=
  exists a, r = Ok (Tensor a) /\ length a = n.

(** The call returned a tensor whose entries lie between [lo] and [hi]. *)
Definition returns_between (lo hi : Qc) (r : result pyval) : Prop :=
  exists a, r = Ok (Tensor a) /\ Forall (fun q => lo <= q /\ q <= hi) a.

(** * Facts about lists of entries *)

Section ListFacts.

Lemma map2_length f a b :
  length (Torch.map2 f a b) = Nat.min (length a) (length b).
Proof.
  revert b; induction a as [|x a IH]; intros [|y b]; simpl; auto.
Qed.

Lemma map3_length f a b c :
  length (map3 f a b c) = Nat.min (length a) (Nat.min (length b) (length c)).
Proof.
  revert b c; induction a as [|x a IH]; intros [|y b] [|z c]; simpl; auto.
Qed.

Lemma nth_map2 f a b k d :
  (k < length a)%nat -> (k < length b)%nat ->
  nth k (Torch.map2 f a b) d = f (nth k a d) (nth k b d).
Proof.
  revert b k; induction a as [|x a IH]; intros [|y b] [|k]; simpl; intros;
    try lia; auto.
  apply IH; lia.
Qed.

Lemma nth_map3 f a b c k d :
  (k < length a)%nat -> (k < length b)%nat -> (k < length c)%nat ->
  nth k (map3 f a b c) d = f (nth k a d) (nth k b d) (nth k c d).
Proof.
  revert b c k; induction a as [|x a IH]; intros [|y b] [|z c] [|k]; simpl;
    intros; try lia; auto.
  apply IH; lia.
Qed.

Lemma nth_map_lt {A} (f : A -> Qc) l k dA d :
  (k < length l)%nat -> nth k (map f l) d = f (nth k l dA).
Proof.
  revert k; induction l as [|x l IH]; intros [|k]; simpl; intros; try lia; auto.
  apply IH; lia.
Qed.

Lemma nth_repeat_lt (q : Qc) n k d :
  (k < n)%nat -> nth k (repeat q n) d = q.
Proof.
  revert k; induction n as [|n IH]; intros [|k]; simpl; intros; try lia; auto.
  apply IH; lia.
Qed.

Lemma units_length n v : has_shape v n -> length (units n v) = n.
Proof. destruct v; simpl; intros; [apply repeat_length | assumption]. Qed.

End ListFacts.

Create Rewrite HintDb len.
#[local] Hint Rewrite map2_length map3_length length_map repeat_length
  Nat.min_id : len.

#[local] Hint Rewrite units_length using assumption : len.

Ltac len := autorewrite with len in *; try lia.

(** Pointwise reasoning: two lists of entries are equal when they have the
    same length and agree at every index. *)
Ltac pointwise k Hk :=
  apply (nth_ext _ _ 0 0); [ len | intros k Hk; len ].


(** * The torch operations on the shapes the transformers meet *)

Section TorchFacts.

Lemma binop_num_tensor f q b :
  Torch.binop f (PyNum q) (Tensor b) = Ok (Tensor (map (f q) b)).
Proof. reflexivity. Qed.

Lemma binop_tensor_num f a q :
  Torch.binop f (Tensor a) (PyNum q) = Ok (Tensor (map (fun x => f x q) a)).
Proof. reflexivity. Qed.

Lemma binop_tensor_tensor f a b :
  length a = length b ->
  Torch.binop f (Tensor a) (Tensor b) = Ok (Tensor (Torch.map2 f a b)).
Proof.
  intros H; unfold Torch.binop, Torch.broadcast.
  now rewrite H, Nat.eqb_refl.
Qed.

Lemma binop_num_num f p q :
  Torch.binop f (PyNum p) (PyNum q) = Ok (PyNum (f p q)).
Proof. reflexivity. Qed.

Lemma iadd_num_tensor q b :
  Torch.iadd (PyNum q) (Tensor b) = Ok (Tensor (map (Qcplus q) b)).
Proof. reflexivity. Qed.

Lemma iadd_tensor_tensor a b :
  length a = length b ->
  Torch.iadd (Tensor a) (Tensor b) = Ok (Tensor (Torch.map2 Qcplus a b)).
Proof. intros H; unfold Torch.iadd. now rewrite H, Nat.eqb_refl. Qed.

Lemma div_num q d :
  d <> 0 -> Torch.div (PyNum q) d = Ok (PyNum (q / d)).
Proof. intros H; unfold Torch.div. now destruct (Qc_eq_dec d 0). Qed.

Lemma div_tensor a d :
  d <> 0 -> Torch.div (Tensor a) d = Ok (Tensor (map (fun x => x / d) a)).
Proof. intros H; unfold Torch.div. now destruct (Qc_eq_dec d 0). Qed.

Lemma binop_tensor_l f v w r :
  Torch.isinstance_float v = false ->
  Torch.binop f v w = Ok r -> Torch.isinstance_float r = false.
Proof.
  destruct v as [p|a], w as [q|b]; simpl; try discriminate; intros _.
  - now intros [= <-].
  - destruct (Torch.broadcast f a b); now intros [= <-].
Qed.

Lemma binop_tensor_r f v w r :
  Torch.isinstance_float w = false ->
  Torch.binop f v w = Ok r -> Torch.isinstance_float r = false.
Proof.
  destruct v as [p|a], w as [q|b]; simpl; try discriminate; intros _.
  - now intros [= <-].
  - destruct (Torch.broadcast f a b); now intros [= <-].
Qed.

Lemma iadd_tensor_r self rhs r :
  Torch.isinstance_float rhs = false ->
  Torch.iadd self rhs = Ok r -> Torch.isinstance_float r = false.
Proof.
  destruct self as [p|a], rhs as [q|b]; simpl; try discriminate; intros _.
  - now intros [= <-].
  - destruct (Nat.eqb (length a) (length b)); [now intros [= <-]|].
    destruct b as [|y [|z b]]; try discriminate. now intros [= <-].
Qed.

End TorchFacts.

(** Splitting a call on the outcome of each torch operation in turn. *)
Ltac destruct_results :=
  repeat match goal with
    | |- context [match ?r with Ok _ => _ | Raise _ => _ end] =>
        destruct r eqn:?
    end.

(** Which of the intermediate values of a call are tensors. *)
Ltac tensor_facts :=
  repeat match goal with
    | H : Torch.binop _ _ ?w = Ok ?r |- _ =>
        lazymatch goal with
        | _ : Torch.isinstance_float r = false |- _ => fail
        | _ => assert (Torch.isinstance_float r = false)
                 by (first
                       [ solve [eapply binop_tensor_r; [|exact H];
                                first [reflexivity | assumption]]
                       | solve [eapply binop_tensor_l; [|exact H];
                                first [reflexivity | assumption]] ])
        end
    | H : Torch.iadd _ ?w = Ok ?r |- _ =>
        lazymatch goal with
        | _ : Torch.isinstance_float r = false |- _ => fail
        | _ => assert (Torch.isinstance_float r = false)
                 by (eapply iadd_tensor_r; [|exact H];
                     first [reflexivity | assumption])
        end
    end.

(** Closed equations between values with rational entries: two canonical
    rationals are equal as soon as their fractions are. *)
Ltac concrete :=
  vm_compute;
  repeat first
    [ reflexivity
    | apply Qc_is_canon; reflexivity
    | progress f_equal ].

(** Unfolding one method call down to the torch operations. *)
Ltac unfold_method :=
  cbv beta iota zeta delta
    [bind ret get put lift raise
     ExpDecayCurrent.forward ExpDecayCurrent.reset ExpDecayCurrent.set_i
     ExpDecayCurrent.tau ExpDecayCurrent.amplitude ExpDecayCurrent.i
     STPTransformer.forward STPTransformer.reset
     STPTransformer.set_x STPTransformer.set_u
     STPTransformer.u_base STPTransformer.tau_f STPTransformer.tau_d
     STPTransformer.x STPTransformer.u
     SpikeCurrent.forward SpikeCurrent.reset SpikeCurrent.amplitude
     Torch.float Torch.add Torch.sub Torch.mul Torch.neg].

(** Evaluating the torch operations of a call whose shapes agree. *)
Ltac torch_step :=
  first
    [ rewrite binop_num_num
    | rewrite binop_num_tensor
    | rewrite binop_tensor_num
    | rewrite binop_tensor_tensor by len
    | rewrite iadd_num_tensor
    | rewrite iadd_tensor_tensor by len
    | rewrite div_num by assumption
    | rewrite div_tensor by assumption ];
  cbv beta iota.

Ltac run_method := unfold_method; repeat torch_step.

(** Rewriting [nth] through the pointwise operations. *)
Ltac nth_simpl :=
  repeat first
    [ rewrite nth_map2 by len
    | rewrite nth_map3 by len
    | rewrite nth_repeat_lt by len
    | rewrite (nth_map_lt _ _ _ 0) by len
    | rewrite (nth_map_lt _ _ _ false) by len ].

(** * ExpDecayCurrent *)

Section ExpDecayCurrentFacts.

Import ExpDecayCurrent.

Lemma same_entries tau amp (a b : list Qc) :
  a = b ->
  (mk tau amp (Tensor a), Ok (Tensor a)) = (mk tau amp (Tensor b), Ok (Tensor b)).
Proof. intros; subst; reflexivity. Qed.

(** The closed form of one call, shared by the results below. *)
Lemma ExpDecayCurrent_forward_closed_form (self : t) (in_spike : list bool) :
  tau self <> 0 ->
  has_shape (i self) (length in_spike) ->
  let i_next :=
    Tensor (Torch.map2 (exp_decay_next (tau self) (amplitude self))
              (units (length in_spike) (i self))
              (map Torch.bool_to_float in_spike)) in
  forward in_spike self = (set_i self i_next, Ok i_next).
Proof.
  destruct self as [tau amp [q|a]]; simpl; intros Htau Hshape.
  - run_method. apply same_entries. pointwise k Hk. nth_simpl.
    unfold exp_decay_next, Qcdiv; ring.
  - run_method. apply same_entries. pointwise k Hk. nth_simpl.
    unfold exp_decay_next, Qcdiv; ring.
Qed.

(** C1.  With [tau <> 0] and a state that is the initial number or a tensor
    of the sample's shape, one call of [forward] computes, unit by unit,
    [i + (-i/tau)*(1-s) + amplitude*s], stores it in [self.i] and returns
    that same value. *)
Theorem ExpDecayCurrent_forward_update (self : t) (in_spike : list bool) :
  tau self <> 0 ->
  has_shape (i self) (length in_spike) ->
  let i_next :=
    Tensor (Torch.map2 (exp_decay_next (tau self) (amplitude self))
              (units (length in_spike) (i self))
              (map Torch.bool_to_float in_spike)) in
  forward in_spike self = (set_i self i_next, Ok i_next)
  /\ i (fst (forward in_spike self)) = i_next
  /\ snd (forward in_spike self) = Ok (i (fst (forward in_spike self))).
Proof.
  intros Htau Hshape i_next.
  rewrite (ExpDecayCurrent_forward_closed_form self in_spike Htau Hshape).
  repeat split.
Qed.

Lemma ExpDecayCurrent_forward_update_witness :
  forward [true; false]
    (mk (qz 10) 1 (Tensor [qfrac 1 2; qfrac 1 2]))
  = (mk (qz 10) 1 (Tensor [qfrac 3 2; qfrac 9 20]),
     Ok (Tensor [qfrac 3 2; qfrac 9 20])).
Proof.
  etransitivity.
  - apply (ExpDecayCurrent_forward_update
             (mk (qz 10) 1 (Tensor [qfrac 1 2; qfrac 1 2])) [true; false]).
    + discriminate.
    + reflexivity.
  - concrete.
Defined.


Lemma exp_decay_next_no_spike tau amp q :
  exp_decay_next tau amp q 0 = q + - q / tau.
Proof. unfold exp_decay_next, Qcdiv; ring. Qed.


Lemma exp_decay_next_no_spike_rest tau amp : exp_decay_next tau amp 0 0 = 0.
Proof. unfold exp_decay_next, Qcdiv; ring. Qed.

(** C3 (the code departs from the claim).  With [tau = 10] and
    [amplitude = 1], two spike steps in a row from the constructed object
    return 1 and then 2: on the second spike the current is the previous
    current plus the amplitude, not the amplitude. *)
Theorem ExpDecayCurrent_spike_adds_amplitude :
  let self := mk (qz 10) 1 (PyNum 0) in
  run [[true]; [true]] self
  = [Ok (Tensor [amplitude self]); Ok (Tensor [amplitude self + amplitude self])]
  /\ run [[true]; [true]] self = [Ok (Tensor [1]); Ok (Tensor [qz 2])]
  /\ amplitude self + amplitude self <> amplitude self.
Proof. repeat split; discriminate. Qed.

(** C7, as stated, fails: after a step on a batch of two units, [reset]
    leaves the number 0 in [self.i], not a tensor of two zeros. *)
Lemma ExpDecayCurrent_reset_drops_shape :
  let self := fst (forward [true; false] (mk (qz 10) 1 (PyNum 0))) in
  i self = Tensor [1; 0]
  /\ i (fst (reset self)) = PyNum 0
  /\ i (fst (reset self)) <> Tensor [0; 0].
Proof. repeat split; discriminate. Qed.

(** C7, amended.  [reset] stores the number 0 in [self.i] whatever the state
    was; no shape is kept, and the next step takes the shape of its own
    sample, starting every unit from 0. *)
Theorem ExpDecayCurrent_reset_to_number (self : t) (in_spike : list bool) :
  tau self <> 0 ->
  reset self = (set_i self (PyNum 0), Ok tt)
  /\ let i_next :=
       Tensor (map (exp_decay_next (tau self) (amplitude self) 0)
                 (map Torch.bool_to_float in_spike)) in
     forward in_spike (fst (reset self)) = (set_i self i_next, Ok i_next).
Proof.
  intros Htau; split; [reflexivity|].
  cbv zeta.
  rewrite (ExpDecayCurrent_forward_closed_form (fst (reset self)) in_spike);
    [| exact Htau | exact I].
  destruct self as [tau amp i0]; simpl.
  apply same_entries. pointwise k Hk. nth_simpl. reflexivity.
Qed.

Lemma ExpDecayCurrent_reset_to_number_witness :
  reset (mk (qz 10) 1 (Tensor [1; 0])) = (mk (qz 10) 1 (PyNum 0), Ok tt)
  /\ forward [true; true; false] (fst (reset (mk (qz 10) 1 (Tensor [1; 0]))))
     = (mk (qz 10) 1 (Tensor [1; 1; 0]), Ok (Tensor [1; 1; 0])).
Proof.
  apply (ExpDecayCurrent_reset_to_number
           (mk (qz 10) 1 (Tensor [1; 0])) [true; true; false]).
  discriminate.
Defined.

End ExpDecayCurrentFacts.

(** * STPTransformer *)

Section STPTransformerFacts.

Import STPTransformer.

Lemma same_entries3 ub tf td (a a' b b' c c' : list Qc) :
  a = a' -> b = b' -> c = c' ->
  (mk ub tf td (Tensor a) (Tensor b), Ok (Tensor c))
  = (mk ub tf td (Tensor a') (Tensor b'), Ok (Tensor c')).
Proof. intros; subst; reflexivity. Qed.

Lemma bool_to_float_false_r q : q * Torch.bool_to_float false = 0.
Proof. unfold Torch.bool_to_float; ring. Qed.

(** The closed form of one call, shared by the results below. *)
Lemma STPTransformer_forward_closed_form (self : t) (in_spike : list bool) :
  tau_d self <> 0 ->
  tau_f self <> 0 ->
  has_shape (x self) (length in_spike) ->
  has_shape (u self) (length in_spike) ->
  let n := length in_spike in
  let s := map Torch.bool_to_float in_spike in
  forward in_spike self
  = (mk (u_base self) (tau_f self) (tau_d self)
       (Tensor (map3 (stp_x_next (tau_d self))
                  (units n (x self)) (units n (u self)) s))
       (Tensor (Torch.map2 (stp_u_next (u_base self) (tau_f self))
                  (units n (u self)) s)),
     Ok (Tensor (map3 (stp_output (u_base self) (tau_f self) (tau_d self))
                   (units n (x self)) (units n (u self)) s))).
Proof.
  destruct self as [ub tf td x0 u0]; simpl; intros Htd Htf Hx Hu.
  destruct x0 as [x0|x0], u0 as [u0|u0]; simpl in *.
  all: run_method.
  all: apply same_entries3; pointwise k Hk; nth_simpl.
  all: unfold stp_output, stp_x_next, stp_u_next, Qcdiv; ring.
Qed.

(** C2.  With nonzero time constants and a state of the sample's shape, one
    call of [forward] computes, unit by unit and in this order,
    [x_next = x + (1-x)/tau_d - x*s*u] from the previous [u], then
    [u_next = u + (u_base-u)/tau_f + u_base*(1-u)*s], stores both, and
    returns [u_next * x_next * s], which is 0 at every unit without a
    spike. *)
Theorem STPTransformer_forward_order (self : t) (in_spike : list bool) :
  tau_d self <> 0 ->
  tau_f self <> 0 ->
  has_shape (x self) (length in_spike) ->
  has_shape (u self) (length in_spike) ->
  let n := length in_spike in
  let s := map Torch.bool_to_float in_spike in
  let x_next := map3 (stp_x_next (tau_d self)) (units n (x self)) (units n (u self)) s in
  let u_next := Torch.map2 (stp_u_next (u_base self) (tau_f self)) (units n (u self)) s in
  let output :=
    map3 (stp_output (u_base self) (tau_f self) (tau_d self))
      (units n (x self)) (units n (u self)) s in
  forward in_spike self
  = (mk (u_base self) (tau_f self) (tau_d self) (Tensor x_next) (Tensor u_next),
     Ok (Tensor output))
  /\ output = map3 (fun xn un sk => un * xn * sk) x_next u_next s
  /\ forall k, (k < n)%nat -> nth k in_spike false = false -> nth k output 0 = 0.
Proof.
  intros Htd Htf Hx Hu; cbv zeta.
  split; [|split].
  - now apply STPTransformer_forward_closed_form.
  - pointwise k Hk. nth_simpl. reflexivity.
  - intros k Hk Hs. nth_simpl.
    rewrite Hs. unfold stp_output. apply bool_to_float_false_r.
Qed.

Lemma STPTransformer_forward_order_witness :
  forward [true; false]
    (mk (qfrac 1 2) (qz 50) (qz 100) (PyNum 1) (PyNum (qfrac 1 2)))
  = (mk (qfrac 1 2) (qz 50) (qz 100)
       (Tensor [qfrac 1 2; 1]) (Tensor [qfrac 3 4; qfrac 1 2]),
     Ok (Tensor [qfrac 3 8; 0])).
Proof.
  etransitivity.
  - refine (proj1 (STPTransformer_forward_order
                     (mk (qfrac 1 2) (qz 50) (qz 100) (PyNum 1) (PyNum (qfrac 1 2)))
                     [true; false] _ _ _ _)).
    + discriminate.
    + discriminate.
    + exact I.
    + exact I.
  - concrete.
Defined.

End STPTransformerFacts.

(** * Construction *)

Section Construction.

(** C4, as stated, fails: the constructors accept a zero and a negative
    time constant. *)
Lemma construction_accepts_nonpositive_tau :
  ExpDecayCurrent.__init__ 0 1 = Ok (ExpDecayCurrent.mk 0 1 (PyNum 0))
  /\ ExpDecayCurrent.__init__ (qz (-1)) 1
     = Ok (ExpDecayCurrent.mk (qz (-1)) 1 (PyNum 0))
  /\ STPTransformer.__init__ (qfrac 1 2) 0 (qz (-1))
     = Ok (STPTransformer.mk (qfrac 1 2) 0 (qz (-1)) (PyNum 1) (PyNum (qfrac 1 2)))
  /\ ExpDecayCurrent.__init__ 0 1 <> Raise ValueError.
Proof. repeat split; discriminate. Qed.

(** C4, amended.  Construction checks nothing: every [tau], and every
    [tau_f] and [tau_d], is accepted and stored as given, with the state at
    its initial value.  A zero [tau] (or [tau_d]) shows only at the first
    step, which raises [ZeroDivisionError] and leaves the object as it
    was. *)
Theorem construction_never_rejects :
  (forall tau amplitude,
      ExpDecayCurrent.__init__ tau amplitude
      = Ok (ExpDecayCurrent.mk tau amplitude (PyNum 0)))
  /\ (forall u_base tau_f tau_d,
        STPTransformer.__init__ u_base tau_f tau_d
        = Ok (STPTransformer.mk u_base tau_f tau_d (PyNum 1) (PyNum u_base)))
  /\ (forall amplitude in_spike,
        let self := ExpDecayCurrent.mk 0 amplitude (PyNum 0) in
        ExpDecayCurrent.forward in_spike self = (self, Raise ZeroDivisionError))
  /\ (forall u_base tau_f in_spike,
        let self := STPTransformer.mk u_base tau_f 0 (PyNum 1) (PyNum u_base) in
        STPTransformer.forward in_spike self = (self, Raise ZeroDivisionError)).
Proof.
  repeat split; intros; unfold_method; unfold Torch.div;
    rewrite ?binop_num_num; cbv beta iota;
    destruct (Qc_eq_dec 0 0); congruence.
Qed.

End Construction.

(** * The rest state *)

Section RestState.

Lemma map_bool_to_float_repeat_false n :
  map Torch.bool_to_float (repeat false n) = repeat 0 n.
Proof. induction n; simpl; congruence. Qed.

(** C10.  From the constructed state, a step without any spike returns 0 at
    every unit and leaves every state entry at its initial value: 0 for
    [ExpDecayCurrent.i], 1 for [STPTransformer.x] and [u_base] for
    [STPTransformer.u] (time constants nonzero). *)
Theorem rest_state_is_fixed_point (n : nat) :
  (forall amplitude self,
      SpikeCurrent.__init__ amplitude = Ok self ->
      SpikeCurrent.forward (repeat false n) self
      = (self, Ok (Tensor (repeat 0 n))))
  /\ (forall tau amplitude self,
        tau <> 0 ->
        ExpDecayCurrent.__init__ tau amplitude = Ok self ->
        ExpDecayCurrent.forward (repeat false n) self
        = (ExpDecayCurrent.set_i self (Tensor (repeat 0 n)),
           Ok (Tensor (repeat 0 n))))
  /\ (forall u_base tau_f tau_d self,
        tau_f <> 0 -> tau_d <> 0 ->
        STPTransformer.__init__ u_base tau_f tau_d = Ok self ->
        STPTransformer.forward (repeat false n) self
        = (STPTransformer.mk u_base tau_f tau_d
             (Tensor (repeat 1 n)) (Tensor (repeat u_base n)),
           Ok (Tensor (repeat 0 n)))).
Proof.
  split; [|split].
  - intros amp self [= <-]. unfold_method. rewrite binop_tensor_num.
    rewrite map_bool_to_float_repeat_false.
    do 3 f_equal. pointwise k Hk. nth_simpl. ring.
  - intros tau amp self Htau [= <-].
    rewrite ExpDecayCurrent_forward_closed_form by (simpl; auto).
    simpl. apply same_entries. rewrite map_bool_to_float_repeat_false.
    pointwise k Hk. nth_simpl. apply exp_decay_next_no_spike_rest.
  - intros ub tf td self Htf Htd [= <-].
    rewrite STPTransformer_forward_closed_form by (simpl; auto).
    simpl. rewrite map_bool_to_float_repeat_false.
    apply same_entries3; pointwise k Hk; nth_simpl;
      unfold stp_output, stp_x_next, stp_u_next, Qcdiv; ring.
Qed.

Lemma rest_state_is_fixed_point_witness :
  STPTransformer.forward (repeat false 3)
    (STPTransformer.mk (qfrac 1 2) (qz 50) (qz 100) (PyNum 1) (PyNum (qfrac 1 2)))
  = (STPTransformer.mk (qfrac 1 2) (qz 50) (qz 100)
       (Tensor (repeat 1 3)) (Tensor (repeat (qfrac 1 2) 3)),
     Ok (Tensor (repeat 0 3))).
Proof.
  refine (proj2 (proj2 (rest_state_is_fixed_point 3))
            (qfrac 1 2) (qz 50) (qz 100) _ _ _ eq_refl).
  - discriminate.
  - discriminate.
Defined.

End RestState.

(** * Reset *)

Section Reset.

Lemma ExpDecayCurrent_forward_params in_spike self :
  let self' := fst (ExpDecayCurrent.forward in_spike self) in
  ExpDecayCurrent.tau self' = ExpDecayCurrent.tau self
  /\ ExpDecayCurrent.amplitude self' = ExpDecayCurrent.amplitude self.
Proof.
  destruct self as [tau amp i0]. unfold_method. destruct_results; simpl; auto.
Qed.

Lemma ExpDecayCurrent_run_state_params train : forall self,
  let self' := run_state train self in
  ExpDecayCurrent.tau self' = ExpDecayCurrent.tau self
  /\ ExpDecayCurrent.amplitude self' = ExpDecayCurrent.amplitude self.
Proof.
  induction train as [|s train IH]; intros self; simpl; [auto|].
  destruct (IH (fst (ExpDecayCurrent.forward s self))) as [-> ->].
  apply ExpDecayCurrent_forward_params.
Qed.

Lemma STPTransformer_forward_invariant ub tf td in_spike self :
  stp_invariant ub tf td self ->
  stp_invariant ub tf td (fst (STPTransformer.forward in_spike self)).
Proof.
  destruct self as [ub' tf' td' x0 u0]; unfold stp_invariant; simpl.
  intros (-> & -> & -> & Hx & Hu).
  unfold_method. destruct_results; simpl; tensor_facts.
  all: repeat split; auto; intros; congruence.
Qed.

Lemma STPTransformer_run_state_invariant ub tf td train : forall self,
  stp_invariant ub tf td self ->
  stp_invariant ub tf td (run_state train self).
Proof.
  induction train as [|s train IH]; intros self Hinv; simpl; [auto|].
  apply IH. now apply STPTransformer_forward_invariant.
Qed.

Lemma all_entries_fill_ q v :
  (Torch.isinstance_float v = true -> v = PyNum q) ->
  all_entries q (Torch.fill_ v q).
Proof.
  destruct v as [p|a]; simpl.
  - intros H. now specialize (H eq_refl) as [= ->].
  - intros _. induction a; simpl; constructor; auto.
Qed.

Lemma fill__fill_ v q : Torch.fill_ (Torch.fill_ v q) q = Torch.fill_ v q.
Proof. destruct v as [p|a]; simpl; [reflexivity|]. now rewrite map_map. Qed.

Lemma STPTransformer_reset_fill self :
  STPTransformer.reset self
  = (STPTransformer.mk (STPTransformer.u_base self) (STPTransformer.tau_f self)
       (STPTransformer.tau_d self)
       (Torch.fill_ (STPTransformer.x self) 1)
       (Torch.fill_ (STPTransformer.u self) (STPTransformer.u_base self)),
     Ok tt).
Proof. destruct self as [ub tf td [p|a] [q|b]]; reflexivity. Qed.

Lemma fill__refill q v :
  (Torch.isinstance_float v = true -> v = PyNum q) ->
  Torch.fill_ v q = refill q v.
Proof.
  destruct v as [p|a]; simpl.
  - intros H. now specialize (H eq_refl) as [= ->].
  - intros _. f_equal. pointwise k Hk. nth_simpl. reflexivity.
Qed.

Lemma refill_idempotent q v : refill q (refill q v) = refill q v.
Proof. destruct v as [p|a]; simpl; [reflexivity|]. now rewrite repeat_length. Qed.

Lemma fill__of_refill q v : Torch.fill_ (refill q v) q = refill q v.
Proof.
  destruct v as [p|a]; simpl; [reflexivity|].
  f_equal. pointwise k Hk. nth_simpl. reflexivity.
Qed.

Lemma refill_is_number q v :
  refill q v = PyNum q <-> Torch.isinstance_float v = true.
Proof. destruct v as [p|a]; simpl; split; congruence. Qed.

(** C5, as stated, fails for [STPTransformer]: after one step on a sample of
    two units, [reset] leaves [x] and [u] as tensors of two entries, not the
    numbers of the constructor.  The object after [reset] is not the
    constructed object, it rejects a sample of three units that a new object
    accepts, and it differs with the shape the prior train established. *)
Lemma STPTransformer_reset_is_not_initial :
  let self0 :=
    STPTransformer.mk (qfrac 1 2) (qz 50) (qz 100) (PyNum 1) (PyNum (qfrac 1 2)) in
  let after2 := fst (reset (run_state [[true; false]] self0)) in
  let after3 := fst (reset (run_state [[true; false; true]] self0)) in
  after2
  = STPTransformer.mk (qfrac 1 2) (qz 50) (qz 100)
      (Tensor [1; 1]) (Tensor [qfrac 1 2; qfrac 1 2])
  /\ after2 <> self0
  /\ snd (STPTransformer.forward [true; true; true] after2) = Raise ShapeError
  /\ (exists a, snd (STPTransformer.forward [true; true; true] self0)
                = Ok (Tensor a))
  /\ after3 <> after2.
Proof.
  assert (E2 : fst (reset (run_state [[true; false]]
                 (STPTransformer.mk (qfrac 1 2) (qz 50) (qz 100)
                    (PyNum 1) (PyNum (qfrac 1 2)))))
               = STPTransformer.mk (qfrac 1 2) (qz 50) (qz 100)
                   (Tensor [1; 1]) (Tensor [qfrac 1 2; qfrac 1 2]))
    by concrete.
  cbv zeta. rewrite E2. repeat split.
  - discriminate.
  - eexists. vm_compute. reflexivity.
  - vm_compute. discriminate.
Qed.

(** C5, amended.  For every variant and every train of prior steps from the
    constructed object, resetting twice leaves the object that resetting
    once leaves.  After [reset], [SpikeCurrent] and [ExpDecayCurrent] are the
    constructed object again ([i] is the number 0).  [STPTransformer] keeps
    its parameters and the shape of each state variable and holds 1 at
    every entry of [x] and [u_base] at every entry of [u]; it is the
    constructed object again exactly when no step had stored a tensor. *)
Theorem reset_idempotent_and_refills (train : list (list bool)) :
  (forall amplitude self0,
      SpikeCurrent.__init__ amplitude = Ok self0 ->
      let self := run_state train self0 in
      fst (reset (fst (reset self))) = fst (reset self)
      /\ fst (reset self) = self0)
  /\ (forall tau amplitude self0,
        ExpDecayCurrent.__init__ tau amplitude = Ok self0 ->
        let self := run_state train self0 in
        fst (reset (fst (reset self))) = fst (reset self)
        /\ fst (reset self) = self0)
  /\ (forall u_base tau_f tau_d self0,
        STPTransformer.__init__ u_base tau_f tau_d = Ok self0 ->
        let self := run_state train self0 in
        fst (reset (fst (reset self))) = fst (reset self)
        /\ fst (reset self)
           = STPTransformer.mk u_base tau_f tau_d
               (refill 1 (STPTransformer.x self))
               (refill u_base (STPTransformer.u self))
        /\ all_entries 1 (STPTransformer.x (fst (reset self)))
        /\ all_entries u_base (STPTransformer.u (fst (reset self)))
        /\ (fst (reset self) = self0 <->
            Torch.isinstance_float (STPTransformer.x self) = true
            /\ Torch.isinstance_float (STPTransformer.u self) = true)).
Proof.
  split; [|split].
  - intros amp self0 [= <-]; simpl. split; [reflexivity|].
    induction train as [|s train IH]; simpl; auto.
  - intros tau amp self0 [= <-]; simpl. split; [reflexivity|].
    destruct (ExpDecayCurrent_run_state_params train
                (ExpDecayCurrent.mk tau amp (PyNum 0))) as [Ht Ha].
    simpl in Ht, Ha. unfold ExpDecayCurrent.reset, bind, get, put; simpl.
    unfold ExpDecayCurrent.set_i. now rewrite Ht, Ha.
  - intros ub tf td self0 [= <-]; simpl.
    assert (Hinv : stp_invariant ub tf td
                     (run_state train (STPTransformer.mk ub tf td (PyNum 1) (PyNum ub)))).
    { apply STPTransformer_run_state_invariant.
      unfold stp_invariant; simpl; auto. }
    destruct Hinv as (Hub & Htf & Htd & Hx & Hu).
    set (st := run_state train (STPTransformer.mk ub tf td (PyNum 1) (PyNum ub)))
      in *.
    assert (R : STPTransformer.reset st
                = (STPTransformer.mk ub tf td
                     (refill 1 (STPTransformer.x st))
                     (refill ub (STPTransformer.u st)), Ok tt)).
    { rewrite STPTransformer_reset_fill, Hub, Htf, Htd.
      now rewrite (fill__refill 1 _ Hx), (fill__refill ub _ Hu). }
    rewrite R. cbn [fst].
    split; [|split; [|split; [|split; [|split]]]].
    + rewrite STPTransformer_reset_fill. cbn [fst STPTransformer.u_base
        STPTransformer.tau_f STPTransformer.tau_d STPTransformer.x STPTransformer.u].
      now rewrite !fill__of_refill.
    + reflexivity.
    + cbn [STPTransformer.x].
      rewrite <- (fill__refill 1 _ Hx). now apply all_entries_fill_.
    + cbn [STPTransformer.u].
      rewrite <- (fill__refill ub _ Hu). now apply all_entries_fill_.
    + intros [= E1 E2]. split.
      * now apply (refill_is_number 1).
      * now apply (refill_is_number ub).
    + intros [E1 E2].
      apply (refill_is_number 1) in E1. apply (refill_is_number ub) in E2.
      now rewrite E1, E2.
Qed.

Lemma reset_idempotent_and_refills_witness :
  let self0 := STPTransformer.mk (qfrac 1 2) (qz 50) (qz 100) (PyNum 1) (PyNum (qfrac 1 2)) in
  let self := run_state [[true; false]; [true; true; true]; [false; true]] self0 in
  fst (reset (fst (reset self))) = fst (reset self)
  /\ fst (reset self)
     = STPTransformer.mk (qfrac 1 2) (qz 50) (qz 100)
         (refill 1 (STPTransformer.x self))
         (refill (qfrac 1 2) (STPTransformer.u self))
  /\ all_entries 1 (STPTransformer.x (fst (reset self)))
  /\ all_entries (qfrac 1 2) (STPTransformer.u (fst (reset self)))
  /\ (fst (reset self) = self0 <->
      Torch.isinstance_float (STPTransformer.x self) = true
      /\ Torch.isinstance_float (STPTransformer.u self) = true).
Proof.
  exact (proj2 (proj2 (reset_idempotent_and_refills
                         [[true; false]; [true; true; true]; [false; true]]))
           (qfrac 1 2) (qz 50) (qz 100) _ eq_refl).
Defined.

End Reset.

(** * Shapes *)

Section ShapeFacts.

Lemma broadcast_raise f a b e :
  Torch.broadcast f a b = Raise e -> e = ShapeError.
Proof.
  unfold Torch.broadcast. destruct (Nat.eqb (length a) (length b)); [discriminate|].
  destruct a as [|x [|x' a]], b as [|y [|y' b]]; try discriminate; now intros [= <-].
Qed.

Lemma binop_raise f v w e : Torch.binop f v w = Raise e -> e = ShapeError.
Proof.
  destruct v as [p|a], w as [q|b]; simpl; try discriminate.
  destruct (Torch.broadcast f a b) eqn:E; [discriminate|].
  intros [= <-]. eapply broadcast_raise; eassumption.
Qed.

Lemma iadd_raise self rhs e : Torch.iadd self rhs = Raise e -> e = ShapeError.
Proof.
  destruct self as [p|a], rhs as [q|b]; simpl; try discriminate.
  destruct (Nat.eqb (length a) (length b)); [discriminate|].
  destruct b as [|y [|y' b]]; try discriminate; now intros [= <-].
Qed.

Lemma broadcast_mismatch f a b :
  length a <> length b -> length a <> 1%nat -> length b <> 1%nat ->
  Torch.broadcast f a b = Raise ShapeError.
Proof.
  intros Hab Ha Hb. unfold Torch.broadcast.
  destruct (Nat.eqb_spec (length a) (length b)); [contradiction|].
  destruct a as [|x [|x' a]], b as [|y [|y' b]]; simpl in *; congruence.
Qed.

Lemma broadcast_length_r f a b c :
  Torch.broadcast f a b = Ok c -> length b <> 1%nat ->
  length a <> length b -> length c = length b.
Proof.
  unfold Torch.broadcast. intros H Hb Hab.
  destruct (Nat.eqb_spec (length a) (length b)); [contradiction|].
  destruct a as [|x [|x' a]], b as [|y [|y' b]]; simpl in *;
    try discriminate; try congruence; injection H as <-; simpl; now len.
Qed.

Lemma broadcast_length_l f a b c :
  Torch.broadcast f a b = Ok c -> length a <> 1%nat -> length c = length a.
Proof.
  unfold Torch.broadcast. intros H Ha.
  destruct (Nat.eqb_spec (length a) (length b)) as [E|E].
  - injection H as <-. len.
  - destruct a as [|x [|x' a]], b as [|y [|y' b]]; simpl in *;
      try discriminate; try congruence; injection H as <-; simpl; now len.
Qed.

Lemma iadd_mismatch a b :
  length a <> length b -> length b <> 1%nat ->
  Torch.iadd (Tensor a) (Tensor b) = Raise ShapeError.
Proof.
  intros Hab Hb. unfold Torch.iadd.
  destruct (Nat.eqb_spec (length a) (length b)); [contradiction|].
  destruct b as [|y [|y' b]]; simpl in *; congruence.
Qed.

Lemma binop_wide_l f m v w r :
  m <> 1%nat -> wide m v -> Torch.binop f v w = Ok r -> wide m r.
Proof.
  intros Hm. destruct v as [p|a], w as [q|b]; simpl; try contradiction; intros Ha.
  - intros [= <-]; simpl. now len.
  - destruct (Torch.broadcast f a b) eqn:E; [|discriminate].
    intros [= <-]; simpl. rewrite (broadcast_length_l _ _ _ _ E); congruence.
Qed.

Lemma binop_wide_r f m v w r :
  m <> 1%nat -> wide m w -> Torch.binop f v w = Ok r -> wide m r.
Proof.
  intros Hm. destruct v as [p|a], w as [q|b]; simpl; try contradiction; intros Hb.
  - intros [= <-]; simpl. now len.
  - destruct (Torch.broadcast f a b) eqn:E; [|discriminate].
    intros [= <-]; simpl.
    destruct (Nat.eq_dec (length a) (length b)) as [Hab|Hab].
    + unfold Torch.broadcast in E. rewrite Hab, Nat.eqb_refl in E.
      injection E as <-. len.
    + rewrite (broadcast_length_r _ _ _ _ E); congruence.
Qed.

Lemma iadd_wide_mismatch m a rhs :
  m <> 1%nat -> length a <> m -> wide m rhs ->
  Torch.iadd (Tensor a) rhs = Raise ShapeError.
Proof.
  intros Hm Ha. destruct rhs as [q|b]; simpl; [contradiction|]. intros Hb.
  apply iadd_mismatch; congruence.
Qed.

End ShapeFacts.

Ltac wide_facts m :=
  repeat match goal with
    | H : Torch.binop _ _ ?w = Ok ?r |- _ =>
        lazymatch goal with
        | _ : wide m r |- _ => fail
        | _ => assert (wide m r)
                 by (first
                       [ solve [eapply binop_wide_r; [| |exact H];
                                first [assumption | simpl; len]]
                       | solve [eapply binop_wide_l; [| |exact H];
                                first [assumption | simpl; len]] ])
        end
    end.

Ltac shape_errors :=
  repeat match goal with
    | H : Torch.binop _ _ _ = Raise ?e |- _ =>
        apply binop_raise in H; subst e
    | H : Torch.iadd _ _ = Raise ?e |- _ =>
        apply iadd_raise in H; subst e
    end.

Section Shapes.

(** C8, as stated, fails: with the shape [[4]] established, a sample of
    shape [[1]] is broadcast over the four units; the call returns and the
    state is modified. *)
Lemma broadcast_sample_accepted :
  let self := ExpDecayCurrent.mk (qz 10) 1 (Tensor [1; 0; 0; 0]) in
  ExpDecayCurrent.forward [true] self
  = (ExpDecayCurrent.mk (qz 10) 1 (Tensor [qz 2; 1; 1; 1]),
     Ok (Tensor [qz 2; 1; 1; 1]))
  /\ fst (ExpDecayCurrent.forward [true] self) <> self
  /\ snd (ExpDecayCurrent.forward [true] self) <> Raise ShapeError.
Proof.
  assert (E : ExpDecayCurrent.forward [true]
                (ExpDecayCurrent.mk (qz 10) 1 (Tensor [1; 0; 0; 0]))
              = (ExpDecayCurrent.mk (qz 10) 1 (Tensor [qz 2; 1; 1; 1]),
                 Ok (Tensor [qz 2; 1; 1; 1]))) by concrete.
  cbv zeta. rewrite E. repeat split; discriminate.
Qed.

(** C8, amended.  For both stateful variants, once the state is a tensor, a
    step whose sample has another number of entries, and not exactly one
    entry, raises a shape error and leaves the object as it was (time
    constant of the first division nonzero).  A one-entry sample is
    broadcast instead. *)
Theorem shape_mismatch_rejected (in_spike : list bool) :
  (forall self a,
      ExpDecayCurrent.tau self <> 0 ->
      ExpDecayCurrent.i self = Tensor a ->
      length in_spike <> length a ->
      length in_spike <> 1%nat ->
      ExpDecayCurrent.forward in_spike self = (self, Raise ShapeError))
  /\ (forall self a,
        STPTransformer.tau_d self <> 0 ->
        STPTransformer.x self = Tensor a ->
        length in_spike <> length a ->
        length in_spike <> 1%nat ->
        STPTransformer.forward in_spike self = (self, Raise ShapeError)).
Proof.
  split.
  - intros [tau amp i0] a Htau Hi Hlen Hone; simpl in *; subst i0.
    unfold_method. rewrite div_tensor by assumption. cbv beta iota.
    destruct_results; shape_errors; try reflexivity.
    all: wide_facts (length in_spike).
    all: match goal with
         | H : Torch.iadd (Tensor ?l) ?r = _ |- _ =>
             rewrite (iadd_wide_mismatch (length in_spike) l r) in H
               by (assumption || congruence)
         end.
    all: congruence.
  - intros [ub tf td x0 u0] a Htd Hx Hlen Hone; simpl in *; subst x0.
    unfold_method. rewrite binop_num_tensor. cbv beta iota.
    rewrite div_tensor by assumption. cbv beta iota.
    destruct (Torch.binop Qcmult (Tensor a)
                (Tensor (map Torch.bool_to_float in_spike))) as [xs|e] eqn:E1;
      [|shape_errors; reflexivity].
    destruct (Torch.binop Qcmult xs u0) as [xsu|e] eqn:E2;
      [|shape_errors; reflexivity].
    match goal with
    | |- context [Torch.binop Qcminus ?d xsu] =>
        destruct (Torch.binop Qcminus d xsu) as [dx|e] eqn:E3;
          [|shape_errors; reflexivity]
    end.
    wide_facts (length in_spike).
    rewrite (iadd_wide_mismatch (length in_spike) a dx)
      by (assumption || congruence).
    reflexivity.
Qed.

Lemma shape_mismatch_rejected_witness :
  let self := ExpDecayCurrent.mk (qz 10) 1 (Tensor [1; 0; 0; 0]) in
  ExpDecayCurrent.forward [true; false; false; false; true] self
  = (self, Raise ShapeError).
Proof.
  refine (proj1 (shape_mismatch_rejected [true; false; false; false; true])
            (ExpDecayCurrent.mk (qz 10) 1 (Tensor [1; 0; 0; 0])) [1; 0; 0; 0]
            _ eq_refl _ _).
  - discriminate.
  - simpl; lia.
  - simpl; lia.
Defined.

End Shapes.

(** * No entry leaves the rationals

    [NonFiniteEntry] marks a tensor divided by zero.  No run from a
    constructed object meets it: a zero time constant already raises
    [ZeroDivisionError] while the state is still a Python number, so the
    state never becomes a tensor. *)

Section Adequacy.

Lemma div_ok_nonzero v d r :
  Torch.div v d = Ok r -> Torch.isinstance_float v = true -> d <> 0.
Proof.
  destruct v as [p|a]; simpl; [|discriminate].
  destruct (Qc_eq_dec d 0); [discriminate|auto].
Qed.

Lemma div_raise_nonfinite v d :
  Torch.div v d = Raise NonFiniteEntry ->
  Torch.isinstance_float v = false /\ d = 0.
Proof.
  destruct v as [p|a]; simpl; destruct (Qc_eq_dec d 0); try discriminate; auto.
Qed.

Lemma binop_num_l_float f p w r :
  Torch.binop f (PyNum p) w = Ok r ->
  Torch.isinstance_float r = Torch.isinstance_float w.
Proof. destruct w; simpl; now intros [= <-]. Qed.

Lemma neg_float v :
  Torch.isinstance_float (Torch.neg v) = Torch.isinstance_float v.
Proof. now destruct v. Qed.

Lemma ExpDecayCurrent_forward_divides in_spike self :
  ExpDecayCurrent_divides self ->
  ExpDecayCurrent_divides (fst (ExpDecayCurrent.forward in_spike self))
  /\ snd (ExpDecayCurrent.forward in_spike self) <> Raise NonFiniteEntry.
Proof.
  destruct self as [tau amp i0]; unfold ExpDecayCurrent_divides; simpl.
  intros Hinv. unfold ExpDecayCurrent.forward, bind, get, lift. cbv zeta.
  cbn [ExpDecayCurrent.tau ExpDecayCurrent.amplitude ExpDecayCurrent.i].
  destruct (Torch.div (Torch.neg i0) tau) as [d|e] eqn:Ediv; simpl.
  - assert (Htau : tau <> 0).
    { destruct (Torch.isinstance_float i0) eqn:Ei; [|auto].
      apply (div_ok_nonzero _ _ _ Ediv). now rewrite neg_float. }
    unfold_method. destruct_results; shape_errors; simpl;
      split; auto; discriminate.
  - split; [assumption|]. intros [= ->].
    apply div_raise_nonfinite in Ediv as [Ht E0].
    rewrite neg_float in Ht. now apply Hinv.
Qed.

Lemma STPTransformer_forward_divides in_spike self :
  STPTransformer_divides self ->
  STPTransformer_divides (fst (STPTransformer.forward in_spike self))
  /\ snd (STPTransformer.forward in_spike self) <> Raise NonFiniteEntry.
Proof.
  destruct self as [ub tf td x0 u0]; unfold STPTransformer_divides; simpl.
  intros [Hx Hu]. unfold_method.
  destruct (Torch.binop Qcminus (PyNum 1) x0) as [omx|e] eqn:E1;
    [|shape_errors; simpl; repeat split; auto; discriminate].
  destruct (Torch.div omx td) as [xd|e] eqn:E2.
  2:{ simpl; repeat split; auto. intros [= ->].
      apply div_raise_nonfinite in E2 as [Ht E0].
      rewrite (binop_num_l_float _ _ _ _ E1) in Ht. now apply Hx. }
  assert (Htd : td <> 0).
  { destruct (Torch.isinstance_float x0) eqn:Ex; [|auto].
    apply (div_ok_nonzero _ _ _ E2).
    now rewrite (binop_num_l_float _ _ _ _ E1). }
  do 4 (match goal with
        | |- context [match ?r with Ok _ => _ | Raise _ => _ end] =>
            destruct r eqn:?;
            [|shape_errors; simpl; repeat split; auto; discriminate]
        end).
  destruct (Torch.binop Qcminus (PyNum ub) u0) as [ubu|e] eqn:E3;
    [|shape_errors; simpl; repeat split; auto; discriminate].
  destruct (Torch.div ubu tf) as [ud|e] eqn:E4.
  2:{ simpl; repeat split; auto. intros [= ->].
      apply div_raise_nonfinite in E4 as [Ht E0].
      rewrite (binop_num_l_float _ _ _ _ E3) in Ht. now apply Hu. }
  assert (Htf : tf <> 0).
  { destruct (Torch.isinstance_float u0) eqn:Eu; [|auto].
    apply (div_ok_nonzero _ _ _ E4).
    now rewrite (binop_num_l_float _ _ _ _ E3). }
  destruct_results; shape_errors; simpl; repeat split; auto;
    first [discriminate | intros E; apply binop_raise in E; discriminate].
Qed.

(** No call of a run from a constructed object ends in [NonFiniteEntry]. *)
Lemma NonFiniteEntry_unreachable (train : list (list bool)) :
  (forall tau amplitude self,
      ExpDecayCurrent.__init__ tau amplitude = Ok self ->
      Forall (fun r => r <> Raise NonFiniteEntry) (run train self))
  /\ (forall u_base tau_f tau_d self,
        STPTransformer.__init__ u_base tau_f tau_d = Ok self ->
        Forall (fun r => r <> Raise NonFiniteEntry) (run train self)).
Proof.
  split.
  - intros tau amp self [= <-].
    assert (H : ExpDecayCurrent_divides (ExpDecayCurrent.mk tau amp (PyNum 0)))
      by (intro; discriminate).
    revert H. generalize (ExpDecayCurrent.mk tau amp (PyNum 0)).
    induction train as [|s train IH]; intros self H; simpl; [constructor|].
    destruct (ExpDecayCurrent_forward_divides s self H) as [H' Hr].
    change (@forward _ ExpDecayCurrent_Transformer s self)
      with (ExpDecayCurrent.forward s self).
    destruct (ExpDecayCurrent.forward s self) as [self' r]; simpl in *.
    constructor; auto.
  - intros ub tf td self [= <-].
    assert (H : STPTransformer_divides
                  (STPTransformer.mk ub tf td (PyNum 1) (PyNum ub)))
      by (split; intro; discriminate).
    revert H. generalize (STPTransformer.mk ub tf td (PyNum 1) (PyNum ub)).
    induction train as [|s train IH]; intros self H; simpl; [constructor|].
    destruct (STPTransformer_forward_divides s self H) as [H' Hr].
    change (@forward _ STPTransformer_Transformer s self)
      with (STPTransformer.forward s self).
    destruct (STPTransformer.forward s self) as [self' r]; simpl in *.
    constructor; auto.
Qed.

End Adequacy.

(** * ExpDecayCurrent in binary32 *)

Section Binary32Facts.

(** C6 (the code departs from the claim).  In binary32, with the positive
    time constant [tau = 0.25] and [amplitude = 1]: a spike on the zero
    state gives 1; from there every step without a spike adds [-i / tau], so
    the state is multiplied by -3; it is still finite after 80 such steps,
    is [-inf] after 81 and [NaN] after 82. *)
Theorem ExpDecayCurrent_binary32_leaves_finite_range :
  let tau := Binary32.dyadic 1 (-2) in
  let amplitude := Binary32.one in
  let silent m := Binary32.run_unit tau amplitude Binary32.one (repeat false m) in
  Binary32.is_finite tau = true
  /\ Binary32.is_positive tau = true
  /\ Binary32.is_finite amplitude = true
  /\ Binary32.forward_unit tau amplitude Binary32.zero true = Binary32.one
  /\ Binary32.forward_unit tau amplitude Binary32.one false
     = Binary32.neg (Binary32.add Binary32.one (Binary32.add Binary32.one Binary32.one))
  /\ Binary32.is_finite (silent 80%nat) = true
  /\ silent 81%nat = S754_infinity true
  /\ Binary32.is_finite (silent 81%nat) = false
  /\ silent 82%nat = S754_nan.
Proof. vm_compute. repeat split. Qed.

End Binary32Facts.

(** * Batch independence *)

Section BatchIndependence.

Variables k n : nat.
Hypothesis k_lt_n : (k < n)%nat.

(** ** Calls in lockstep *)

Lemma msim_ret {S A} (RS : S -> S -> Prop) (RA : A -> A -> Prop) a1 a2 :
  RA a1 a2 -> msim RS RA (ret a1) (ret a2).
Proof. intros H s1 s2 Hs; simpl; auto. Qed.

Lemma msim_lift {S A} (RS : S -> S -> Prop) (RA : A -> A -> Prop) r1 r2 :
  sim_result RA r1 r2 -> msim RS RA (lift r1) (lift r2).
Proof. intros H s1 s2 Hs; simpl; auto. Qed.

Lemma msim_get {S} (RS : S -> S -> Prop) : msim RS RS get get.
Proof. intros s1 s2 Hs; simpl; auto. Qed.

Lemma msim_put {S} (RS : S -> S -> Prop) s1 s2 :
  RS s1 s2 -> msim RS (fun _ _ => True) (put s1) (put s2).
Proof. intros H s1' s2' Hs; simpl; auto. Qed.

Lemma msim_bind {S A B} (RS : S -> S -> Prop) (RA : A -> A -> Prop)
    (RB : B -> B -> Prop) m1 m2 k1 k2 :
  msim RS RA m1 m2 ->
  (forall a1 a2, RA a1 a2 -> msim RS RB (k1 a1) (k2 a2)) ->
  msim RS RB (bind m1 k1) (bind m2 k2).
Proof.
  intros Hm Hk s1 s2 Hs. unfold bind.
  destruct (Hm s1 s2 Hs) as [Hs' Hr].
  destruct (m1 s1) as [s1' [a1|e1]], (m2 s2) as [s2' [a2|e2]]; simpl in *;
    try contradiction.
  - now apply Hk.
  - auto.
Qed.

(** ** The torch operations act on each unit alone *)

Lemma sim_num q : sim k n (PyNum q) (PyNum q).
Proof. split; simpl; auto. Qed.

Lemma sim_float in_spike :
  length in_spike = n ->
  sim k n (Torch.float in_spike) (Torch.float (sample_of k in_spike)).
Proof.
  intros H; split; simpl; [now len|].
  now rewrite (nth_map_lt _ _ _ false) by lia.
Qed.

Lemma sim_neg v1 v2 : sim k n v1 v2 -> sim k n (Torch.neg v1) (Torch.neg v2).
Proof.
  destruct v1 as [p|a]; intros [Hs ->]; split; simpl in *; auto; [now len|].
  now rewrite (nth_map_lt _ _ _ 0) by lia.
Qed.

Lemma sim_binop f v1 v2 w1 w2 :
  sim k n v1 v2 -> sim k n w1 w2 ->
  sim_result (sim k n) (Torch.binop f v1 w1) (Torch.binop f v2 w2).
Proof.
  destruct v1 as [p|a], w1 as [q|b]; intros [Hv ->] [Hw ->]; simpl in *.
  - split; simpl; auto.
  - split; simpl; [now len|]. now rewrite (nth_map_lt _ _ _ 0) by lia.
  - split; simpl; [now len|]. now rewrite (nth_map_lt _ _ _ 0) by lia.
  - unfold Torch.broadcast; simpl. rewrite Hv, Hw, Nat.eqb_refl; simpl.
    split; simpl; [len|]. now rewrite nth_map2 by lia.
Qed.

Lemma sim_div v1 v2 d :
  sim k n v1 v2 -> sim_result (sim k n) (Torch.div v1 d) (Torch.div v2 d).
Proof.
  destruct v1 as [p|a]; intros [Hv ->]; simpl in *.
  - destruct (Qc_eq_dec d 0); simpl; auto using sim_num.
  - destruct (Qc_eq_dec d 0); simpl.
    + destruct a; simpl in *; [lia|reflexivity].
    + split; simpl; [now len|]. now rewrite (nth_map_lt _ _ _ 0) by lia.
Qed.

Lemma sim_iadd v1 v2 w1 w2 :
  sim k n v1 v2 -> sim k n w1 w2 ->
  sim_result (sim k n) (Torch.iadd v1 w1) (Torch.iadd v2 w2).
Proof.
  destruct v1 as [p|a], w1 as [q|b]; intros [Hv ->] [Hw ->]; simpl in *.
  - split; simpl; auto.
  - split; simpl; [now len|]. now rewrite (nth_map_lt _ _ _ 0) by lia.
  - split; simpl; [now len|]. now rewrite (nth_map_lt _ _ _ 0) by lia.
  - rewrite Hv, Hw, Nat.eqb_refl; simpl.
    split; simpl; [len|]. now rewrite nth_map2 by lia.
Qed.

End BatchIndependence.

Create HintDb sim.
#[local] Hint Resolve sim_num sim_float sim_neg sim_binop sim_div sim_iadd : sim.

(** One step of a lockstep proof: the next operation of both calls, then the
    rest of the method. *)
Ltac sim_bind :=
  eapply msim_bind;
  [ first [ solve [apply msim_get]
          | solve [apply msim_lift; eauto 6 with sim]
          | solve [apply msim_put; hnf; cbn; auto 6] ]
  | intros ].

Section BatchRuns.

Variables k n : nat.
Hypothesis k_lt_n : (k < n)%nat.

Lemma SpikeCurrent_forward_sim in_spike :
  length in_spike = n ->
  msim eq (sim k n)
    (SpikeCurrent.forward in_spike) (SpikeCurrent.forward (sample_of k in_spike)).
Proof.
  intros Hlen. unfold SpikeCurrent.forward.
  sim_bind. subst. apply msim_lift. unfold Torch.mul. eauto with sim.
Qed.

Ltac related_ExpDecayCurrent :=
  match goal with
  | H : ExpDecayCurrent_sim _ _ ?b ?s |- _ =>
      destruct b as [? ? ?], s as [? ? ?];
      unfold ExpDecayCurrent_sim in H;
      cbn [ExpDecayCurrent.tau ExpDecayCurrent.amplitude ExpDecayCurrent.i] in *;
      destruct H as (-> & -> & ?)
  end.

Ltac related_STPTransformer :=
  match goal with
  | H : STPTransformer_sim _ _ ?b ?s |- _ =>
      destruct b as [? ? ? ? ?], s as [? ? ? ? ?];
      unfold STPTransformer_sim in H;
      cbn [STPTransformer.u_base STPTransformer.tau_f STPTransformer.tau_d
           STPTransformer.x STPTransformer.u] in *;
      destruct H as (-> & -> & -> & ? & ?)
  end.

Lemma ExpDecayCurrent_forward_sim in_spike :
  length in_spike = n ->
  msim (ExpDecayCurrent_sim k n) (sim k n)
    (ExpDecayCurrent.forward in_spike)
    (ExpDecayCurrent.forward (sample_of k in_spike)).
Proof.
  intros Hlen. unfold ExpDecayCurrent.forward, Torch.add, Torch.sub, Torch.mul.
  cbv zeta.
  sim_bind. related_ExpDecayCurrent.
  do 6 sim_bind.
  sim_bind.
  sim_bind. related_ExpDecayCurrent.
  now apply msim_ret.
Qed.

Lemma STPTransformer_forward_sim in_spike :
  length in_spike = n ->
  msim (STPTransformer_sim k n) (sim k n)
    (STPTransformer.forward in_spike)
    (STPTransformer.forward (sample_of k in_spike)).
Proof.
  intros Hlen. unfold STPTransformer.forward, Torch.add, Torch.sub, Torch.mul.
  cbv zeta.
  sim_bind. related_STPTransformer.
  do 6 sim_bind.
  sim_bind.
  sim_bind. related_STPTransformer.
  do 7 sim_bind.
  sim_bind.
  sim_bind. related_STPTransformer.
  sim_bind.
  apply msim_lift. eauto with sim.
Qed.

Lemma sim_result_unit_of r1 r2 :
  sim_result (sim k n) r1 r2 -> r2 = result_map (unit_of k) r1.
Proof.
  destruct r1 as [v1|e1], r2 as [v2|e2]; simpl; try contradiction.
  - now intros [_ ->].
  - now intros ->.
Qed.

(** A whole train: the single-unit object, fed the samples of unit [k],
    returns at every timestep what unit [k] of the batched object returns. *)
Lemma run_lockstep {T} `{Transformer T} (RS : T -> T -> Prop) :
  (forall in_spike, length in_spike = n ->
     msim RS (sim k n) (forward in_spike) (forward (sample_of k in_spike))) ->
  forall train batched single,
    Forall (fun in_spike => length in_spike = n) train ->
    RS batched single ->
    run (map (sample_of k) train) single
    = map (result_map (unit_of k)) (run train batched).
Proof.
  intros Hstep train; induction train as [|in_spike train IH];
    intros batched single Hall HR; simpl; [reflexivity|].
  apply Forall_cons_iff in Hall as [Hlen Hall'].
  destruct (Hstep in_spike Hlen batched single HR) as [HR' Hr].
  destruct (forward in_spike batched) as [batched' r1],
           (forward (sample_of k in_spike) single) as [single' r2]; simpl in *.
  f_equal; [now apply sim_result_unit_of | now apply IH].
Qed.

End BatchRuns.

(** C9.  For every variant: run one object on a train of [n]-unit samples,
    and run another object, constructed with the same parameters, on the
    samples of unit [k] alone.  At every timestep the second returns what
    the first returns for unit [k] (and raises whenever the first does).
    Two units with different trains are the case [n = 2]. *)
Theorem batch_independence (k n : nat) (train : list (list bool)) :
  (k < n)%nat ->
  Forall (fun in_spike => length in_spike = n) train ->
  (forall amplitude self,
      SpikeCurrent.__init__ amplitude = Ok self ->
      run (map (sample_of k) train) self
      = map (result_map (unit_of k)) (run train self))
  /\ (forall tau amplitude self,
        ExpDecayCurrent.__init__ tau amplitude = Ok self ->
        run (map (sample_of k) train) self
        = map (result_map (unit_of k)) (run train self))
  /\ (forall u_base tau_f tau_d self,
        STPTransformer.__init__ u_base tau_f tau_d = Ok self ->
        run (map (sample_of k) train) self
        = map (result_map (unit_of k)) (run train self)).
Proof.
  intros Hk Hall. split; [|split].
  - intros amp self _.
    apply (run_lockstep k n eq); auto.
    intros; now apply SpikeCurrent_forward_sim.
  - intros tau amp self [= <-].
    apply (run_lockstep k n (ExpDecayCurrent_sim k n)); auto.
    + intros; now apply ExpDecayCurrent_forward_sim.
    + repeat split.
  - intros ub tf td self [= <-].
    apply (run_lockstep k n (STPTransformer_sim k n)); auto.
    + intros; now apply STPTransformer_forward_sim.
    + repeat split.
Qed.

Lemma batch_independence_witness :
  let train := [[true; false]; [true; true]; [false; true]; [false; false]] in
  let self := ExpDecayCurrent.mk (qz 10) 1 (PyNum 0) in
  run (map (sample_of 1) train) self
  = map (result_map (unit_of 1)) (run train self).
Proof.
  refine (proj1 (proj2
            (batch_independence 1 2
               [[true; false]; [true; true]; [false; true]; [false; false]]
               _ _)) (qz 10) 1 _ eq_refl).
  - lia.
  - repeat constructor.
Defined.

(** * Trains, call by call *)

Section RunFacts.

Lemma ExpDecayCurrent_run_cons in_spike train self :
  run (in_spike :: train) self
  = snd (ExpDecayCurrent.forward in_spike self)
    :: run train (fst (ExpDecayCurrent.forward in_spike self)).
Proof.
  cbn [run forward ExpDecayCurrent_Transformer].
  now destruct (ExpDecayCurrent.forward in_spike self).
Qed.

Lemma ExpDecayCurrent_run_state_cons in_spike train self :
  run_state (in_spike :: train) self
  = run_state train (fst (ExpDecayCurrent.forward in_spike self)).
Proof. reflexivity. Qed.

Lemma STPTransformer_run_cons in_spike train self :
  run (in_spike :: train) self
  = snd (STPTransformer.forward in_spike self)
    :: run train (fst (STPTransformer.forward in_spike self)).
Proof.
  cbn [run forward STPTransformer_Transformer].
  now destruct (STPTransformer.forward in_spike self).
Qed.

Lemma STPTransformer_run_state_cons in_spike train self :
  run_state (in_spike :: train) self
  = run_state train (fst (STPTransformer.forward in_spike self)).
Proof. reflexivity. Qed.

End RunFacts.

(** * Order on the rationals of the model *)

Section OrderFacts.

Lemma this_plus x y : (this (x + y) == this x + this y)%Q.
Proof. unfold Qcplus; cbn [this Q2Qc]. apply Qred_correct. Qed.

Lemma this_mult x y : (this (x * y) == this x * this y)%Q.
Proof. unfold Qcmult; cbn [this Q2Qc]. apply Qred_correct. Qed.

Lemma this_opp x : (this (- x) == - this x)%Q.
Proof. unfold Qcopp; cbn [this Q2Qc]. apply Qred_correct. Qed.

Lemma this_minus x y : (this (x - y) == this x - this y)%Q.
Proof. unfold Qcminus. rewrite this_plus, this_opp. reflexivity. Qed.

Lemma this_inv x : (this (/ x) == / this x)%Q.
Proof. unfold Qcinv; cbn [this Q2Qc]. apply Qred_correct. Qed.

Lemma this_div x y : (this (x / y) == this x * / this y)%Q.
Proof. unfold Qcdiv. rewrite this_mult, this_inv. reflexivity. Qed.

Lemma Qinv_ge_1 (q : Q) : (1 <= q -> 0 < / q /\ / q <= 1)%Q.
Proof.
  intros H. assert (0 < q)%Q by lra. split.
  - now apply Qinv_lt_0_compat.
  - apply Qle_shift_inv_r; [assumption | lra].
Qed.

End OrderFacts.

(** From an order statement on canonical rationals to one on fractions. *)
Ltac to_Q :=
  unfold Qcle, Qclt in *;
  repeat first
    [ rewrite this_plus in * | rewrite this_minus in * | rewrite this_mult in *
    | rewrite this_div in * | rewrite this_opp in * | rewrite this_inv in * ];
  change (this 0) with 0%Q in *; change (this 1) with 1%Q in *.

Section BoundFacts.

Lemma ge_1_nonzero (tau : Qc) : 1 <= tau -> tau <> 0.
Proof. intros H ->. to_Q. lra. Qed.



Lemma stp_x_next_between td x u (b : bool) :
  1 <= td -> 0 <= x -> x <= 1 -> 0 <= u -> u <= 1 ->
  0 <= stp_x_next td x u (Torch.bool_to_float b)
  /\ stp_x_next td x u (Torch.bool_to_float b) <= 1.
Proof.
  intros Htd Hx0 Hx1 Hu0 Hu1. unfold stp_x_next. cbv zeta.
  destruct b; cbn [Torch.bool_to_float]; to_Q.
  all: destruct (Qinv_ge_1 _ Htd) as [Hr0 Hr1].
  all: generalize dependent (/ this td)%Q; intros r Hr0 Hr1.
  all: generalize dependent (this x); generalize dependent (this u); intros.
  all: split; nra.
Qed.

Lemma stp_u_next_between ub tf u (b : bool) :
  0 <= ub -> ub <= 1 -> 1 <= tf -> ub <= u -> u <= 1 ->
  ub <= stp_u_next ub tf u (Torch.bool_to_float b)
  /\ stp_u_next ub tf u (Torch.bool_to_float b) <= 1.
Proof.
  intros Hb0 Hb1 Htf Hu0 Hu1. unfold stp_u_next. cbv zeta.
  destruct b; cbn [Torch.bool_to_float]; to_Q.
  all: destruct (Qinv_ge_1 _ Htf) as [Hr0 Hr1].
  all: generalize dependent (/ this tf)%Q; intros r Hr0 Hr1.
  all: generalize dependent (this ub); generalize dependent (this u); intros.
  all: split; nra.
Qed.

Lemma product_between (p q : Qc) (b : bool) :
  0 <= p -> p <= 1 -> 0 <= q -> q <= 1 ->
  0 <= p * q * Torch.bool_to_float b /\ p * q * Torch.bool_to_float b <= 1.
Proof.
  intros. destruct b; cbn [Torch.bool_to_float]; to_Q.
  all: generalize dependent (this p); generalize dependent (this q); intros.
  all: split; nra.
Qed.

Lemma Forall_map2_spikes (P R : Qc -> Prop) f a (in_spike : list bool) :
  (forall x b, P x -> R (f x (Torch.bool_to_float b))) ->
  Forall P a ->
  Forall R (Torch.map2 f a (map Torch.bool_to_float in_spike)).
Proof.
  intros Hf Ha. revert in_spike.
  induction Ha as [|x a Hx Ha IH]; intros [|b in_spike]; simpl; constructor; auto.
Qed.

Lemma Forall_map3_spikes (P Q' R : Qc -> Prop) f a c (in_spike : list bool) :
  (forall x y b, P x -> Q' y -> R (f x y (Torch.bool_to_float b))) ->
  Forall P a -> Forall Q' c ->
  Forall R (map3 f a c (map Torch.bool_to_float in_spike)).
Proof.
  intros Hf Ha. revert c in_spike.
  induction Ha as [|x a Hx Ha IH]; intros c in_spike Hc;
    destruct Hc as [|y c Hy Hc], in_spike as [|b in_spike]; simpl;
    constructor; auto.
Qed.

Lemma entries_between_units lo hi n v :
  entries_between lo hi v ->
  Forall (fun q => lo <= q /\ q <= hi) (units n v).
Proof.
  destruct v as [q|a]; simpl; [|auto].
  intros H. induction n; simpl; constructor; auto.
Qed.

End BoundFacts.

(** * Further properties of SpikeCurrent *)

Section SpikeCurrentMore.

Lemma SpikeCurrent_forward_value amp in_spike :
  SpikeCurrent.forward in_spike (SpikeCurrent.mk amp)
  = (SpikeCurrent.mk amp,
     Ok (Tensor (map (fun b : bool => if b then amp else 0) in_spike))).
Proof.
  unfold_method. rewrite binop_tensor_num, map_map.
  do 3 f_equal. apply map_ext. intros [|]; unfold Torch.bool_to_float; ring.
Qed.

(** X1.  [SpikeCurrent] has no memory: on any train, whatever the shapes of
    its samples, every call returns the amplitude at the units that spike and
    0 at the others, in the shape of the sample, never raises, and leaves the
    object as constructed. *)
Theorem SpikeCurrent_memoryless (amp : Qc) (train : list (list bool)) :
  run train (SpikeCurrent.mk amp)
  = map (fun in_spike =>
           Ok (Tensor (map (fun b : bool => if b then amp else 0) in_spike)))
      train
  /\ run_state train (SpikeCurrent.mk amp) = SpikeCurrent.mk amp.
Proof.
  induction train as [|in_spike train [IHr IHs]]; [split; reflexivity|].
  cbn [run run_state map].
  change (@forward _ SpikeCurrent_Transformer in_spike (SpikeCurrent.mk amp))
    with (SpikeCurrent.forward in_spike (SpikeCurrent.mk amp)).
  rewrite SpikeCurrent_forward_value. cbn [fst]. now rewrite IHr, IHs.
Qed.

End SpikeCurrentMore.

(** * Further properties of ExpDecayCurrent *)

Section ExpDecayCurrentMore.

Import ExpDecayCurrent.

(** X2.  A call of [forward] that raises leaves the object exactly as it
    was, whatever the state and the sample: the only store to [self.i] is the
    last operation that can fail. *)
Theorem ExpDecayCurrent_forward_raise_keeps_state (self : t) in_spike e :
  snd (forward in_spike self) = Raise e ->
  fst (forward in_spike self) = self.
Proof.
  destruct self as [tau amp i0]. unfold_method.
  destruct_results; simpl; intros; congruence.
Qed.

Lemma ExpDecayCurrent_forward_raise_keeps_state_witness :
  fst (forward [true; false; true] (mk (qz 10) 1 (Tensor [1; 0])))
  = mk (qz 10) 1 (Tensor [1; 0]).
Proof.
  apply (ExpDecayCurrent_forward_raise_keeps_state
           (mk (qz 10) 1 (Tensor [1; 0])) [true; false; true] ShapeError).
  reflexivity.
Defined.

Lemma iadd_tensor_wide a rhs r :
  Torch.iadd (Tensor a) rhs = Ok r -> wide (length a) r.
Proof.
  destruct rhs as [q|b]; simpl.
  - intros [= <-]; simpl. now len.
  - destruct (Nat.eqb_spec (length a) (length b)) as [E|E].
    + intros [= <-]; simpl. len.
    + destruct b as [|y [|y' b]]; try discriminate.
      intros [= <-]; simpl. now len.
Qed.

Lemma ExpDecayCurrent_forward_keeps_shape in_spike self m :
  wide m (i self) -> wide m (i (fst (forward in_spike self))).
Proof.
  destruct self as [tau amp [q|a]]; simpl; [contradiction|]. intros Hm.
  unfold_method. destruct_results; simpl; auto.
  subst m. eapply iadd_tensor_wide; eassumption.
Qed.

(** X3.  Once [self.i] is a tensor, its number of entries never changes:
    after any further train of calls, failing or not, with samples of any
    shape, [self.i] is a tensor of as many entries. *)
Theorem ExpDecayCurrent_shape_is_kept (train : list (list bool)) (self : t) a :
  i self = Tensor a ->
  wide (length a) (i (run_state train self)).
Proof.
  intros Hi.
  assert (H : wide (length a) (i self)) by (rewrite Hi; reflexivity).
  clear Hi. revert self H.
  induction train as [|in_spike train IH]; intros self H; simpl; [assumption|].
  apply IH. now apply ExpDecayCurrent_forward_keeps_shape.
Qed.

Lemma ExpDecayCurrent_shape_is_kept_witness :
  wide 2 (i (run_state [[true; false]; [true]; [true; true; true]; [false; true]]
               (mk (qz 10) 1 (Tensor [1; 0])))).
Proof.
  apply (ExpDecayCurrent_shape_is_kept
           [[true; false]; [true]; [true; true; true]; [false; true]]
           (mk (qz 10) 1 (Tensor [1; 0])) [1; 0]).
  reflexivity.
Defined.

(** One call on a sample of the state's shape, on the record itself. *)
Lemma ExpDecayCurrent_step tau amp i0 in_spike :
  tau <> 0 ->
  has_shape i0 (length in_spike) ->
  forward in_spike (mk tau amp i0)
  = (mk tau amp
       (Tensor (Torch.map2 (exp_decay_next tau amp)
                  (units (length in_spike) i0) (map Torch.bool_to_float in_spike))),
     Ok (Tensor (Torch.map2 (exp_decay_next tau amp)
                   (units (length in_spike) i0) (map Torch.bool_to_float in_spike)))).
Proof.
  intros Htau Hs.
  now rewrite (ExpDecayCurrent_forward_closed_form (mk tau amp i0) in_spike).
Qed.

Lemma map_bool_to_float_repeat b n :
  map Torch.bool_to_float (repeat b n) = repeat (Torch.bool_to_float b) n.
Proof. induction n; simpl; congruence. Qed.

Lemma map2_repeat_r f a q n :
  length a = n -> Torch.map2 f a (repeat q n) = map (fun x => f x q) a.
Proof.
  intros H. pointwise k Hk. nth_simpl. reflexivity.
Qed.








(** X6.  With [tau <> 0], a train whose samples all have [n] entries never
    raises from the constructed object: every call returns a tensor of [n]
    entries, and the state ends as a tensor of [n] entries (if the train is
    not empty). *)
Theorem ExpDecayCurrent_same_shape_never_raises (n : nat) (train : list (list bool))
    (tau amp : Qc) :
  tau <> 0 ->
  Forall (fun in_spike => length in_spike = n) train ->
  Forall (returns_units n) (run train (mk tau amp (PyNum 0)))
  /\ (train <> [] -> wide n (i (run_state train (mk tau amp (PyNum 0))))).
Proof.
  intros Htau Hall.
  assert (G : forall i0, has_shape i0 n ->
            Forall (returns_units n) (run train (mk tau amp i0))
            /\ (train <> [] -> wide n (i (run_state train (mk tau amp i0))))
            /\ has_shape (i (run_state train (mk tau amp i0))) n).
  { induction train as [|in_spike train IH]; intros i0 Hs.
    - repeat split; [constructor | congruence | exact Hs].
    - apply Forall_cons_iff in Hall as [Hlen Hall].
      rewrite ExpDecayCurrent_run_cons, ExpDecayCurrent_run_state_cons.
      rewrite ExpDecayCurrent_step by (auto; now rewrite Hlen).
      cbn [fst snd].
      set (a := Torch.map2 _ _ _).
      assert (Ha : length a = n).
      { unfold a. len. rewrite units_length by now rewrite Hlen. lia. }
      destruct (IH Hall (Tensor a) Ha) as (IHr & IHw & IHs).
      repeat split.
      + constructor; [now exists a | exact IHr].
      + intros _. destruct train as [|s' train]; [exact Ha | apply IHw; congruence].
      + exact IHs. }
  destruct (G (PyNum 0) I) as (Hr & Hw & _). now split.
Qed.

Lemma ExpDecayCurrent_same_shape_never_raises_witness :
  Forall (returns_units 2)
    (run [[true; false]; [false; false]; [true; true]] (mk (qz 10) 1 (PyNum 0))).
Proof.
  apply (ExpDecayCurrent_same_shape_never_raises 2
           [[true; false]; [false; false]; [true; true]] (qz 10) 1).
  - discriminate.
  - repeat constructor.
Defined.




Lemma binop_singleton_r f a y :
  Torch.binop f (Tensor a) (Tensor [y])
  = Torch.binop f (Tensor a) (Tensor (repeat y (length a))).
Proof.
  rewrite (binop_tensor_tensor f a (repeat y (length a)))
    by now rewrite repeat_length.
  rewrite map2_repeat_r by reflexivity.
  unfold Torch.binop, Torch.broadcast.
  destruct a as [|x [|x' a]]; reflexivity.
Qed.

Lemma iadd_singleton_r a y :
  Torch.iadd (Tensor a) (Tensor [y])
  = Torch.iadd (Tensor a) (Tensor (repeat y (length a))).
Proof.
  rewrite (iadd_tensor_tensor a (repeat y (length a)))
    by now rewrite repeat_length.
  rewrite map2_repeat_r by reflexivity.
  unfold Torch.iadd. destruct a as [|x [|x' a]]; reflexivity.
Qed.

Lemma ExpDecayCurrent_one_entry_forward tau amp a (b : bool) :
  tau <> 0 ->
  forward [b] (mk tau amp (Tensor a))
  = forward (repeat b (length a)) (mk tau amp (Tensor a)).
Proof.
  intros Htau.
  rewrite (ExpDecayCurrent_step tau amp (Tensor a) (repeat b (length a)))
    by (auto; simpl; now rewrite repeat_length).
  rewrite repeat_length. cbn [units].
  rewrite map_bool_to_float_repeat, map2_repeat_r by reflexivity.
  unfold_method. cbn [map].
  rewrite div_tensor by assumption. cbv beta iota.
  rewrite binop_num_tensor. cbv beta iota. cbn [map].
  rewrite binop_singleton_r, binop_tensor_tensor by len. cbv beta iota.
  rewrite binop_num_tensor. cbv beta iota. cbn [map].
  rewrite binop_singleton_r, binop_tensor_tensor by len. cbv beta iota.
  rewrite iadd_tensor_tensor by len. cbv beta iota.
  apply same_entries. pointwise k Hk. nth_simpl.
  unfold exp_decay_next, Qcdiv; ring.
Qed.

(** X8.  A one-entry sample against a tensor state is the same spike sent to
    every unit: [forward] on the sample [[b]] does what it does on the sample
    with [b] at each of the state's units ([tau <> 0]). *)
Theorem ExpDecayCurrent_one_entry_sample (self : t) (a : list Qc) (b : bool) :
  tau self <> 0 ->
  i self = Tensor a ->
  forward [b] self = forward (repeat b (length a)) self.
Proof.
  destruct self as [tau amp i0]; simpl. intros Htau ->.
  now apply ExpDecayCurrent_one_entry_forward.
Qed.

Lemma ExpDecayCurrent_one_entry_sample_witness :
  forward [true] (mk (qz 10) 1 (Tensor [1; 0; qz 2]))
  = forward [true; true; true] (mk (qz 10) 1 (Tensor [1; 0; qz 2])).
Proof.
  apply (ExpDecayCurrent_one_entry_sample
           (mk (qz 10) 1 (Tensor [1; 0; qz 2])) [1; 0; qz 2] true).
  - discriminate.
  - reflexivity.
Defined.

Lemma ExpDecayCurrent_mismatch_raises tau amp a in_spike :
  tau <> 0 ->
  length in_spike <> length a ->
  length in_spike <> 1%nat ->
  forward in_spike (mk tau amp (Tensor a))
  = (mk tau amp (Tensor a), Raise ShapeError).
Proof.
  intros Htau Hlen Hone.
  unfold_method. rewrite div_tensor by assumption. cbv beta iota.
  destruct_results; shape_errors; try reflexivity.
  all: wide_facts (length in_spike).
  all: match goal with
       | H : Torch.iadd (Tensor ?l) ?r = _ |- _ =>
           rewrite (iadd_wide_mismatch (length in_spike) l r) in H
             by (assumption || congruence)
       end.
  all: congruence.
Qed.

(** X18.  From a tensor state, [forward] raises exactly when the sample has
    neither the state's number of entries nor one entry, and then it raises a
    shape error ([tau <> 0]). *)
Theorem ExpDecayCurrent_raises_exactly_when (self : t) (a : list Qc)
    (in_spike : list bool) :
  tau self <> 0 ->
  i self = Tensor a ->
  ((exists e, snd (forward in_spike self) = Raise e) <->
   length in_spike <> length a /\ length in_spike <> 1%nat)
  /\ (forall e, snd (forward in_spike self) = Raise e -> e = ShapeError).
Proof.
  destruct self as [tau amp i0]; simpl. intros Htau ->.
  destruct (Nat.eq_dec (length in_spike) (length a)) as [En|En].
  - rewrite ExpDecayCurrent_step by (auto; simpl; congruence). simpl.
    split; [|discriminate]. split; [intros [e H]; discriminate | lia].
  - destruct (Nat.eq_dec (length in_spike) 1) as [E1|E1].
    + destruct in_spike as [|s [|s' in_spike]]; try discriminate.
      rewrite ExpDecayCurrent_one_entry_forward by assumption.
      rewrite ExpDecayCurrent_step
        by (auto; simpl; now rewrite repeat_length). simpl.
      split; [|discriminate]. split; [intros [e H]; discriminate | lia].
    + rewrite ExpDecayCurrent_mismatch_raises by assumption. simpl.
      split; [|now intros e [= <-]].
      split; [auto | intros _; now exists ShapeError].
Qed.

Lemma ExpDecayCurrent_raises_exactly_when_witness :
  let self := mk (qz 10) 1 (Tensor [1; 0; qz 2]) in
  ((exists e, snd (forward [true; false] self) = Raise e) <->
   length [true; false] <> length [1; 0; qz 2]
   /\ length [true; false] <> 1%nat)
  /\ (forall e, snd (forward [true; false] self) = Raise e -> e = ShapeError).
Proof.
  apply (ExpDecayCurrent_raises_exactly_when
           (mk (qz 10) 1 (Tensor [1; 0; qz 2])) [1; 0; qz 2] [true; false]).
  - discriminate.
  - reflexivity.
Defined.





End ExpDecayCurrentMore.

(** * Further properties of STPTransformer *)

Section STPTransformerMore.

Import STPTransformer.

(** One call on a sample of the state's shape, on the record itself. *)
Lemma STPTransformer_step ub tf td x0 u0 in_spike :
  td <> 0 -> tf <> 0 ->
  has_shape x0 (length in_spike) ->
  has_shape u0 (length in_spike) ->
  let n := length in_spike in
  let s := map Torch.bool_to_float in_spike in
  forward in_spike (mk ub tf td x0 u0)
  = (mk ub tf td
       (Tensor (map3 (stp_x_next td) (units n x0) (units n u0) s))
       (Tensor (Torch.map2 (stp_u_next ub tf) (units n u0) s)),
     Ok (Tensor (map3 (stp_output ub tf td) (units n x0) (units n u0) s))).
Proof.
  intros Htd Htf Hx Hu.
  now rewrite (STPTransformer_forward_closed_form (mk ub tf td x0 u0) in_spike).
Qed.

(** X10.  [forward] is not all-or-nothing on the constructed object: with
    [tau_f = 0] and [tau_d <> 0] the call raises [ZeroDivisionError] after
    [self.x] has been stored, so [x] is left updated (a tensor of the
    sample's shape) while [u] is still the number [u_base]. *)
Theorem STPTransformer_forward_half_update (ub td : Qc) (in_spike : list bool) :
  td <> 0 ->
  forward in_spike (mk ub 0 td (PyNum 1) (PyNum ub))
  = (mk ub 0 td
       (Tensor (map (stp_x_next td 1 ub) (map Torch.bool_to_float in_spike)))
       (PyNum ub),
     Raise ZeroDivisionError).
Proof.
  intros Htd. unfold_method. repeat torch_step.
  unfold Torch.div. destruct (Qc_eq_dec 0 0) as [_|H]; [|congruence].
  do 2 f_equal. f_equal. rewrite !map_map. apply map_ext; intros.
  unfold stp_x_next, Qcdiv; ring.
Qed.

Lemma STPTransformer_forward_half_update_witness :
  forward [true; false] (mk (qfrac 1 2) 0 (qz 100) (PyNum 1) (PyNum (qfrac 1 2)))
  = (mk (qfrac 1 2) 0 (qz 100) (Tensor [qfrac 1 2; 1]) (PyNum (qfrac 1 2)),
     Raise ZeroDivisionError).
Proof.
  etransitivity.
  - apply (STPTransformer_forward_half_update (qfrac 1 2) (qz 100) [true; false]).
    discriminate.
  - concrete.
Defined.

Lemma STPTransformer_forward_keeps_shape in_spike self m p :
  wide m (x self) -> wide p (u self) ->
  wide m (x (fst (forward in_spike self)))
  /\ wide p (u (fst (forward in_spike self))).
Proof.
  destruct self as [ub tf td [q|a] [q'|b]]; simpl; try contradiction.
  intros Hm Hp. unfold_method. destruct_results; simpl; subst; split; auto.
  all: eapply iadd_tensor_wide; eassumption.
Qed.

(** X11.  Once [self.x] and [self.u] are tensors, their numbers of entries
    never change: after any further train of calls, failing or not, with
    samples of any shape, each is a tensor of as many entries as before. *)
Theorem STPTransformer_shape_is_kept (train : list (list bool)) (self : t) a b :
  x self = Tensor a ->
  u self = Tensor b ->
  wide (length a) (x (run_state train self))
  /\ wide (length b) (u (run_state train self)).
Proof.
  intros Hx Hu.
  assert (H : wide (length a) (x self) /\ wide (length b) (u self))
    by (rewrite Hx, Hu; split; reflexivity).
  clear Hx Hu. revert self H.
  induction train as [|in_spike train IH]; intros self [H1 H2]; simpl;
    [now split|].
  apply IH. now apply STPTransformer_forward_keeps_shape.
Qed.

Lemma STPTransformer_shape_is_kept_witness :
  let self := mk (qfrac 1 2) (qz 50) (qz 100) (Tensor [1; 1]) (Tensor [qfrac 1 2; qfrac 1 2]) in
  wide 2 (x (run_state [[true; false]; [true]; [true; true; true]] self))
  /\ wide 2 (u (run_state [[true; false]; [true]; [true; true; true]] self)).
Proof.
  apply (STPTransformer_shape_is_kept [[true; false]; [true]; [true; true; true]]
           (mk (qfrac 1 2) (qz 50) (qz 100) (Tensor [1; 1])
              (Tensor [qfrac 1 2; qfrac 1 2]))
           [1; 1] [qfrac 1 2; qfrac 1 2]); reflexivity.
Defined.

Lemma STPTransformer_same_shape_run n ub tf td (train : list (list bool)) :
  td <> 0 -> tf <> 0 ->
  Forall (fun in_spike => length in_spike = n) train ->
  forall x0 u0,
    has_shape x0 n -> has_shape u0 n ->
    Forall (returns_units n) (run train (mk ub tf td x0 u0))
    /\ has_shape (x (run_state train (mk ub tf td x0 u0))) n
    /\ has_shape (u (run_state train (mk ub tf td x0 u0))) n.
Proof.
  intros Htd Htf.
  induction train as [|in_spike train IH]; intros Hall x0 u0 Hx Hu.
  - repeat split; [constructor | exact Hx | exact Hu].
  - apply Forall_cons_iff in Hall as [Hlen Hall].
    rewrite STPTransformer_run_cons, STPTransformer_run_state_cons.
    rewrite STPTransformer_step by (auto; now rewrite Hlen).
    cbn [fst snd]. rewrite Hlen.
    set (xs := map3 (stp_x_next td) _ _ _).
    set (us := Torch.map2 (stp_u_next ub tf) _ _).
    set (out := map3 (stp_output ub tf td) _ _ _).
    assert (Hxs : length xs = n) by (unfold xs; len).
    assert (Hus : length us = n) by (unfold us; len).
    assert (Ho : length out = n) by (unfold out; len).
    destruct (IH Hall (Tensor xs) (Tensor us) Hxs Hus) as (IHr & IHx & IHu).
    repeat split; auto. constructor; [now exists out | exact IHr].
Qed.

(** X12.  With nonzero time constants, a train whose samples all have [n]
    entries never raises from the constructed object: every call returns a
    tensor of [n] entries. *)
Theorem STPTransformer_same_shape_never_raises (n : nat)
    (train : list (list bool)) (ub tf td : Qc) :
  td <> 0 -> tf <> 0 ->
  Forall (fun in_spike => length in_spike = n) train ->
  Forall (returns_units n) (run train (mk ub tf td (PyNum 1) (PyNum ub))).
Proof.
  intros Htd Htf Hall.
  now apply (STPTransformer_same_shape_run n ub tf td train Htd Htf Hall
               (PyNum 1) (PyNum ub)).
Qed.

Lemma STPTransformer_same_shape_never_raises_witness :
  Forall (returns_units 2)
    (run [[true; false]; [false; false]; [true; true]]
       (mk (qfrac 1 2) (qz 50) (qz 100) (PyNum 1) (PyNum (qfrac 1 2)))).
Proof.
  apply (STPTransformer_same_shape_never_raises 2
           [[true; false]; [false; false]; [true; true]]
           (qfrac 1 2) (qz 50) (qz 100)).
  - discriminate.
  - discriminate.
  - repeat constructor.
Defined.

Lemma STPTransformer_bounded_run n ub tf td (train : list (list bool)) :
  0 <= ub -> ub <= 1 -> 1 <= tf -> 1 <= td ->
  Forall (fun in_spike => length in_spike = n) train ->
  forall x0 u0,
    has_shape x0 n -> has_shape u0 n ->
    entries_between 0 1 x0 -> entries_between ub 1 u0 ->
    Forall (returns_between 0 1) (run train (mk ub tf td x0 u0))
    /\ entries_between 0 1 (x (run_state train (mk ub tf td x0 u0)))
    /\ entries_between ub 1 (u (run_state train (mk ub tf td x0 u0))).
Proof.
  intros Hb0 Hb1 Htf Htd.
  induction train as [|in_spike train IH]; intros Hall x0 u0 Hx Hu Bx Bu.
  - repeat split; [constructor | exact Bx | exact Bu].
  - apply Forall_cons_iff in Hall as [Hlen Hall].
    rewrite STPTransformer_run_cons, STPTransformer_run_state_cons.
    rewrite STPTransformer_step by (auto using ge_1_nonzero; now rewrite Hlen).
    cbn [fst snd]. rewrite Hlen.
    set (xs := map3 (stp_x_next td) _ _ _).
    set (us := Torch.map2 (stp_u_next ub tf) _ _).
    set (out := map3 (stp_output ub tf td) _ _ _).
    assert (Hxs : length xs = n) by (unfold xs; len).
    assert (Hus : length us = n) by (unfold us; len).
    assert (Bxs : Forall (fun q => 0 <= q /\ q <= 1) xs).
    { unfold xs. apply Forall_map3_spikes
        with (P := fun q => 0 <= q /\ q <= 1) (Q' := fun q => ub <= q /\ q <= 1);
        auto using entries_between_units.
      intros p q b [Hp0 Hp1] [Hq0 Hq1].
      apply stp_x_next_between; auto. now apply Qcle_trans with ub. }
    assert (Bus : Forall (fun q => ub <= q /\ q <= 1) us).
    { unfold us. apply Forall_map2_spikes with (P := fun q => ub <= q /\ q <= 1);
        auto using entries_between_units.
      intros q b [Hq0 Hq1]. now apply stp_u_next_between. }
    assert (Bout : Forall (fun q => 0 <= q /\ q <= 1) out).
    { unfold out. apply Forall_map3_spikes
        with (P := fun q => 0 <= q /\ q <= 1) (Q' := fun q => ub <= q /\ q <= 1);
        auto using entries_between_units.
      intros p q b [Hp0 Hp1] [Hq0 Hq1]. unfold stp_output.
      destruct (stp_u_next_between ub tf q b) as [Hu0 Hu1]; auto.
      destruct (stp_x_next_between td p q b) as [Hx0 Hx1]; auto.
      { now apply Qcle_trans with ub. }
      apply product_between; auto. now apply Qcle_trans with ub. }
    destruct (IH Hall (Tensor xs) (Tensor us) Hxs Hus Bxs Bus) as (IHr & IHx & IHu).
    repeat split; auto. constructor; [now exists out | exact IHr].
Qed.

(** X13.  With [0 <= u_base <= 1], [1 <= tau_f] and [1 <= tau_d], on any
    train of samples of one shape from the constructed object, every entry of
    [x] stays between 0 and 1, every entry of [u] between [u_base] and 1, and
    every returned current between 0 and 1. *)
Theorem STPTransformer_state_bounds (n : nat) (train : list (list bool))
    (ub tf td : Qc) :
  0 <= ub -> ub <= 1 -> 1 <= tf -> 1 <= td ->
  Forall (fun in_spike => length in_spike = n) train ->
  let self := mk ub tf td (PyNum 1) (PyNum ub) in
  Forall (returns_between 0 1) (run train self)
  /\ entries_between 0 1 (x (run_state train self))
  /\ entries_between ub 1 (u (run_state train self)).
Proof.
  intros Hb0 Hb1 Htf Htd Hall.
  apply (STPTransformer_bounded_run n ub tf td train Hb0 Hb1 Htf Htd Hall
           (PyNum 1) (PyNum ub)); simpl; auto.
  - split; [discriminate | apply Qcle_refl].
  - split; [apply Qcle_refl | assumption].
Qed.

Lemma STPTransformer_state_bounds_witness :
  let train := [[true; false]; [true; true]; [false; true]] in
  let self := mk (qfrac 1 2) (qz 50) (qz 100) (PyNum 1) (PyNum (qfrac 1 2)) in
  Forall (returns_between 0 1) (run train self)
  /\ entries_between 0 1 (x (run_state train self))
  /\ entries_between (qfrac 1 2) 1 (u (run_state train self)).
Proof.
  apply (STPTransformer_state_bounds 2
           [[true; false]; [true; true]; [false; true]]
           (qfrac 1 2) (qz 50) (qz 100)).
  - discriminate.
  - discriminate.
  - discriminate.
  - discriminate.
  - repeat constructor.
Defined.






Lemma units_fill_ n v q :
  has_shape v n ->
  (Torch.isinstance_float v = true -> v = PyNum q) ->
  units n (Torch.fill_ v q) = repeat q n.
Proof.
  destruct v as [p|a]; simpl; intros Hs Hv.
  - now specialize (Hv eq_refl) as [= ->].
  - pointwise k Hk. nth_simpl. reflexivity.
Qed.

Lemma has_shape_fill_ n v q : has_shape v n -> has_shape (Torch.fill_ v q) n.
Proof. destruct v; simpl; auto. intros; now len. Qed.

(** X15.  [reset] keeps the shape of the state but restores the behaviour of
    a new object: after any train of [n]-entry samples and a [reset], a
    further train of [n]-entry samples returns, call by call, what it returns
    on a newly constructed object (time constants nonzero). *)
Theorem STPTransformer_reset_then_same_shape (n : nat)
    (before train : list (list bool)) (ub tf td : Qc) :
  td <> 0 -> tf <> 0 ->
  Forall (fun in_spike => length in_spike = n) before ->
  Forall (fun in_spike => length in_spike = n) train ->
  let self0 := mk ub tf td (PyNum 1) (PyNum ub) in
  run train (fst (reset (run_state before self0))) = run train self0.
Proof.
  intros Htd Htf Hbefore Hall self0.
  destruct (STPTransformer_same_shape_run n ub tf td before Htd Htf Hbefore
              (PyNum 1) (PyNum ub) I I) as (_ & Hx & Hu).
  assert (Hinv : stp_invariant ub tf td (run_state before self0)).
  { apply STPTransformer_run_state_invariant. unfold stp_invariant; simpl; auto. }
  fold self0 in Hx, Hu.
  destruct Hinv as (Eub & Etf & Etd & Ix & Iu).
  rewrite STPTransformer_reset_fill, Eub, Etf, Etd. cbn [fst].
  destruct train as [|in_spike train]; [reflexivity|].
  apply Forall_cons_iff in Hall as [Hlen Hall].
  unfold self0. rewrite !STPTransformer_run_cons.
  rewrite !STPTransformer_step
    by (auto; rewrite Hlen; simpl; auto using has_shape_fill_).
  rewrite Hlen, !units_fill_ by assumption.
  reflexivity.
Qed.

Lemma STPTransformer_reset_then_same_shape_witness :
  let self0 := mk (qfrac 1 2) (qz 50) (qz 100) (PyNum 1) (PyNum (qfrac 1 2)) in
  run [[false; true]; [true; true]]
    (fst (reset (run_state [[true; false]; [true; true]] self0)))
  = run [[false; true]; [true; true]] self0.
Proof.
  apply (STPTransformer_reset_then_same_shape 2
           [[true; false]; [true; true]] [[false; true]; [true; true]]
           (qfrac 1 2) (qz 50) (qz 100)).
  - discriminate.
  - discriminate.
  - repeat constructor.
  - repeat constructor.
Defined.

Lemma STPTransformer_one_entry_forward ub tf td a b (s : bool) :
  td <> 0 -> tf <> 0 ->
  length b = length a ->
  forward [s] (mk ub tf td (Tensor a) (Tensor b))
  = forward (repeat s (length a)) (mk ub tf td (Tensor a) (Tensor b)).
Proof.
  intros Htd Htf Hlen.
  rewrite (STPTransformer_step ub tf td (Tensor a) (Tensor b) (repeat s (length a)))
    by (auto; simpl; now rewrite repeat_length).
  rewrite repeat_length. cbn [units].
  rewrite map_bool_to_float_repeat.
  unfold_method. cbn [map].
  repeat first [torch_step | rewrite binop_singleton_r].
  apply same_entries3; pointwise k Hk; nth_simpl.
  all: unfold stp_output, stp_x_next, stp_u_next, Qcdiv; ring.
Qed.

(** X16.  A one-entry sample against a state of [n]-entry tensors is the same
    spike sent to every unit: [forward] on the sample [[s]] does what it does
    on the sample with [s] at each of the [n] units (time constants
    nonzero). *)
Theorem STPTransformer_one_entry_sample (self : t) (a b : list Qc) (s : bool) :
  tau_d self <> 0 -> tau_f self <> 0 ->
  x self = Tensor a -> u self = Tensor b ->
  length b = length a ->
  forward [s] self = forward (repeat s (length a)) self.
Proof.
  destruct self as [ub tf td x0 u0]; simpl. intros Htd Htf -> -> Hlen.
  now apply STPTransformer_one_entry_forward.
Qed.

Lemma STPTransformer_one_entry_sample_witness :
  let self := mk (qfrac 1 2) (qz 50) (qz 100)
                (Tensor [1; qfrac 1 2]) (Tensor [qfrac 1 2; qfrac 3 4]) in
  forward [true] self = forward [true; true] self.
Proof.
  apply (STPTransformer_one_entry_sample
           (mk (qfrac 1 2) (qz 50) (qz 100)
              (Tensor [1; qfrac 1 2]) (Tensor [qfrac 1 2; qfrac 3 4]))
           [1; qfrac 1 2] [qfrac 1 2; qfrac 3 4] true).
  - discriminate.
  - discriminate.
  - reflexivity.
  - reflexivity.
  - reflexivity.
Defined.

Lemma STPTransformer_mismatch_raises ub tf td a u0 in_spike :
  td <> 0 ->
  length in_spike <> length a ->
  length in_spike <> 1%nat ->
  forward in_spike (mk ub tf td (Tensor a) u0)
  = (mk ub tf td (Tensor a) u0, Raise ShapeError).
Proof.
  intros Htd Hlen Hone.
  unfold_method. rewrite binop_num_tensor. cbv beta iota.
  rewrite div_tensor by assumption. cbv beta iota.
  destruct (Torch.binop Qcmult (Tensor a)
              (Tensor (map Torch.bool_to_float in_spike))) as [xs|e] eqn:E1;
    [|shape_errors; reflexivity].
  destruct (Torch.binop Qcmult xs u0) as [xsu|e] eqn:E2;
    [|shape_errors; reflexivity].
  match goal with
  | |- context [Torch.binop Qcminus ?d xsu] =>
      destruct (Torch.binop Qcminus d xsu) as [dx|e] eqn:E3;
        [|shape_errors; reflexivity]
  end.
  wide_facts (length in_spike).
  rewrite (iadd_wide_mismatch (length in_spike) a dx)
    by (assumption || congruence).
  reflexivity.
Qed.

(** X17.  Once both state variables are tensors of one shape, [forward] is
    all-or-nothing: a call that raises raises a shape error and leaves the
    object exactly as it was (time constants nonzero).  It raises exactly
    when the sample has neither the state's number of entries nor one
    entry. *)
Theorem STPTransformer_tensor_state_all_or_nothing (self : t) (a b : list Qc)
    (in_spike : list bool) :
  tau_d self <> 0 -> tau_f self <> 0 ->
  x self = Tensor a -> u self = Tensor b ->
  length b = length a ->
  (forall e, snd (forward in_spike self) = Raise e ->
     e = ShapeError /\ fst (forward in_spike self) = self)
  /\ ((exists e, snd (forward in_spike self) = Raise e) <->
      length in_spike <> length a /\ length in_spike <> 1%nat).
Proof.
  destruct self as [ub tf td x0 u0]; simpl. intros Htd Htf -> -> Hlen.
  destruct (Nat.eq_dec (length in_spike) (length a)) as [En|En].
  - rewrite STPTransformer_step by (auto; simpl; congruence). simpl.
    split; [discriminate|]. split; [intros [e H]; discriminate | lia].
  - destruct (Nat.eq_dec (length in_spike) 1) as [E1|E1].
    + destruct in_spike as [|s [|s' in_spike]]; try discriminate.
      rewrite STPTransformer_one_entry_forward by assumption.
      rewrite STPTransformer_step
        by (auto; simpl; now rewrite repeat_length). simpl.
      split; [discriminate|]. split; [intros [e H]; discriminate | lia].
    + rewrite STPTransformer_mismatch_raises by assumption. simpl.
      split; [now intros e [= <-]|].
      split; [auto | intros _; now exists ShapeError].
Qed.

Lemma STPTransformer_tensor_state_all_or_nothing_witness :
  let self := mk (qfrac 1 2) (qz 50) (qz 100)
                (Tensor [1; qfrac 1 2]) (Tensor [qfrac 1 2; qfrac 3 4]) in
  (forall e, snd (forward [true; true; false] self) = Raise e ->
     e = ShapeError /\ fst (forward [true; true; false] self) = self)
  /\ ((exists e, snd (forward [true; true; false] self) = Raise e) <->
      length [true; true; false] <> length [1; qfrac 1 2]
      /\ length [true; true; false] <> 1%nat).
Proof.
  apply (STPTransformer_tensor_state_all_or_nothing
           (mk (qfrac 1 2) (qz 50) (qz 100)
              (Tensor [1; qfrac 1 2]) (Tensor [qfrac 1 2; qfrac 3 4]))
           [1; qfrac 1 2] [qfrac 1 2; qfrac 3 4] [true; true; false]).
  - discriminate.
  - discriminate.
  - reflexivity.
  - reflexivity.
  - reflexivity.
Defined.

Lemma STPTransformer_rest_after_silence n ub tf td (m : nat) :
  td <> 0 -> tf <> 0 ->
  forall x0 u0,
    has_shape x0 n -> has_shape u0 n ->
    units n x0 = repeat 1 n -> units n u0 = repeat ub n ->
    let self := run_state (constant_train false n m) (mk ub tf td x0 u0) in
    self = mk ub tf td (x self) (u self)
    /\ has_shape (x self) n /\ has_shape (u self) n
    /\ units n (x self) = repeat 1 n /\ units n (u self) = repeat ub n.
Proof.
  intros Htd Htf. induction m as [|m IH]; intros x0 u0 Hx Hu Ex Eu.
  - simpl. auto.
  - unfold constant_train in *. cbn [repeat]. cbv zeta.
    rewrite STPTransformer_run_state_cons.
    pose proof (STPTransformer_step ub tf td x0 u0 (repeat false n) Htd Htf) as E.
    rewrite repeat_length in E. specialize (E Hx Hu). cbv zeta in E.
    rewrite E. cbn [fst].
    rewrite map_bool_to_float_repeat, Ex, Eu. cbn [Torch.bool_to_float].
    apply IH; simpl; try now len.
    + pointwise k Hk. nth_simpl. unfold stp_x_next, Qcdiv; ring.
    + pointwise k Hk. nth_simpl. unfold stp_u_next, Qcdiv; ring.
Qed.

(** X19.  The response to a first spike does not depend on the time
    constants: from the constructed object, after any number [m] of steps
    without spikes, a step in which all [n] units spike returns
    [u_base * (2 - u_base) * (1 - u_base)] at every unit (time constants
    nonzero). *)
Theorem STPTransformer_first_spike_response (n m : nat) (ub tf td : Qc) :
  td <> 0 -> tf <> 0 ->
  snd (forward (repeat true n)
         (run_state (constant_train false n m) (mk ub tf td (PyNum 1) (PyNum ub))))
  = Ok (Tensor (repeat (ub * (qz 2 - ub) * (1 - ub)) n)).
Proof.
  intros Htd Htf.
  destruct (STPTransformer_rest_after_silence n ub tf td m Htd Htf
              (PyNum 1) (PyNum ub) I I eq_refl eq_refl)
    as (E & Hx & Hu & Ex & Eu).
  destruct (run_state (constant_train false n m)
              (mk ub tf td (PyNum 1) (PyNum ub))) as [ub' tf' td' x1 u1].
  cbn [x u] in *. injection E as -> -> ->.
  pose proof (STPTransformer_step ub tf td x1 u1 (repeat true n) Htd Htf) as S.
  rewrite repeat_length in S. specialize (S Hx Hu). cbv zeta in S.
  rewrite S. cbn [snd]. rewrite Ex, Eu, map_bool_to_float_repeat.
  cbn [Torch.bool_to_float]. do 2 f_equal.
  pointwise k Hk. nth_simpl.
  unfold stp_output, stp_u_next, stp_x_next, Qcdiv.
  replace (qz 2) with (1 + 1) by (apply Qc_is_canon; reflexivity).
  field. split; assumption.
Qed.

Lemma STPTransformer_first_spike_response_witness :
  snd (forward (repeat true 2)
         (run_state (constant_train false 2 3)
            (mk (qfrac 1 2) (qz 50) (qz 100) (PyNum 1) (PyNum (qfrac 1 2)))))
  = Ok (Tensor [qfrac 3 8; qfrac 3 8]).
Proof.
  etransitivity.
  - apply (STPTransformer_first_spike_response 2 3 (qfrac 1 2) (qz 50) (qz 100));
      discriminate.
  - concrete.
Defined.

End STPTransformerMore.
